(** * in-linked: the login-challenge orchestrator of [app3.js] / [app2.js]

    A shallow embedding of the Express handlers and their puppeteer helpers,
    and of the phone form script of the front end.

    Every call the JavaScript makes on something outside the process (the
    puppeteer browser, page, frame and CDP client objects, the HTTP response
    object, timers, the front end's DOM and [fetch]) is an event of a small
    free monad; an oracle, which sees everything that happened so far,
    answers each event with a value or with an exception.  The registry
    [sessions] is the one piece of process state and is threaded by the
    interpreter.  [console.log] / [console.error] calls are left out: they
    do not touch the browser and no handler depends on them. *)

From Stdlib Require Import ZArith List String Ascii Lia Bool.
From stdpp Require Import base tactics option list strings gmap.

Set Warnings "-register-all".
Local Open Scope string_scope.
Local Open Scope list_scope.

(** ** Values *)

(** Handles handed out by puppeteer. *)
Definition BrowserId := nat.
Definition PageId := nat.
Definition FrameId := nat.
Definition ClientId := nat.

(** A frame together with the frames embedded in it, in document order:
    what [page.mainFrame()] and [frame.childFrames()] expose.  The tree is
    the one the page has when [page.mainFrame()] is read. *)
Inductive Frame : Type :=
| FrameNode (id : FrameId) (children : list Frame).

(** The JSON values the handlers send. *)
Inductive Json : Type :=
| JNull
| JBool (b : bool)
| JStr (s : string)
| JArr (l : list Json)
| JObj (fields : list (string * Json)).

(** [res.send(v)] against [res.json(v)]; [SendErr] is [res.send(err)] with
    the caught exception. *)
Inductive Body : Type :=
| Send (v : Json)
| SendJson (v : Json)
| SendErr (e : string).

(** The outcome of a call that may throw; the exception is its message. *)
Inductive result (A : Type) : Type :=
| Ok (a : A)
| Err (e : string).
Arguments Ok {A} a.
Arguments Err {A} e.

(** [s.includes(sub)] *)
Fixpoint includes (s sub : string) : bool :=
  if String.prefix sub s then true
  else match s with
       | EmptyString => false
       | String _ s' => includes s' sub
       end.

(** JavaScript truthiness of a value that is a string, [null] or
    [undefined]. *)
Definition truthy (v : option string) : bool :=
  match v with
  | Some s => negb (String.eqb s "")
  | None => false
  end.

(** ** Events *)

(** The functions the handlers run inside the remote document through
    [frame.evaluate] / [page.evaluate]. *)
Inductive Script : Type :=
| TilesExist                 (* six tile elements?  handlePuzzleTiles *)
| FirstTileBlobUrl           (* blob url of the first tile's background *)
| DownloadLink (sessionId : string) (* click a download link *)
| ClickStartPuzzle           (* find a start control and click it *)
| TilesHtml                  (* outerHTML of the tile buttons, or null *)
| ClickTile (selectedTile : Z) (* click tiles[selectedTile - 1] if there *)
| HeaderText                 (* trimmed text of h1.content__header, or null *)
| ClearInput (selector : string) (* set the input's value to the empty string *)
| HasErrorBanner             (* errorBanner && !hidden, so null or a boolean *)
| ErrorMessage.              (* text of the alert span, or the default text *)

Definition ScriptRes (s : Script) : Type :=
  match s with
  | TilesExist => bool
  | FirstTileBlobUrl => option string
  | DownloadLink _ => unit
  | ClickStartPuzzle => bool
  | TilesHtml => option (list string)
  | ClickTile _ => bool
  | HeaderText => option string
  | ClearInput _ => unit
  | HasErrorBanner => option bool
  | ErrorMessage => string
  end.

(** The three kinds of promise raced after a tile click. *)
Inductive Signal : Type :=
| SigNavigation (timeout : Z)   (* page.waitForNavigation({timeout}) *)
| SigNetworkIdle (timeout : Z)  (* page.waitForNetworkIdle({timeout}) *)
| SigTimer (ms : Z).              (* new Promise(r => setTimeout(r, ms)) *)

(** What the phone form gets back from [fetch]: [response.ok] and the
    [error] field of [await response.json()], which may throw. *)
Record FetchResponse : Type := mkFetchResponse {
  resp_ok : bool;
  resp_error : result (option string)
}.

(** The calls.  Selectors are written without the quotation marks they
    have inside the JavaScript strings. *)
Inductive Call : Type :=
(* puppeteer *)
| Launch
| NewPage (b : BrowserId)
| CreateCDPSession (p : PageId)
| ClientSend (c : ClientId) (method : string)
| ClientDetach (c : ClientId)
| PageClose (p : PageId)
| SetUserAgent (p : PageId) (ua : string)
| Goto (p : PageId) (url : string)
| WaitForSelector (p : PageId) (selector : string) (visible : bool)
| TypeText (p : PageId) (selector : string) (text : option string)
| Click (p : PageId) (selector : string)
| SelectOption (p : PageId) (selector : string) (value : string)
| Query (p : PageId) (selector : string)              (* page.$(selector) *)
| Url (p : PageId)
| MainFrame (p : PageId)
| Frames (p : PageId)
| FrameEvaluate (f : FrameId) (s : Script)
| PageEvaluate (p : PageId) (s : Script)
| WaitForUrlChange (p : PageId) (oldUrl : string) (timeout : Z)
| ClickAndWaitForNavigation (p : PageId) (selector : string) (swallowNavError : bool)
| Race (signals : list Signal)
(* the rest of the process *)
| Delay (ms : Z)
| AskQuestion (prompt : string)
| UuidV4
| FsExists (path : string)
| Respond (status : nat) (body : Body)
(* the phone form of the front end *)
| HideError
| ShowError (message : string)
| Fetch (url : string) (phone countryCode : string) (sessionId : option string)
| SetLocation (href : string).

Definition Resp (c : Call) : Type :=
  match c with
  | Launch => BrowserId
  | NewPage _ => PageId
  | CreateCDPSession _ => ClientId
  | Query _ _ => bool
  | Url _ => string
  | MainFrame _ => Frame
  | Frames _ => list FrameId
  | FrameEvaluate _ s => ScriptRes s
  | PageEvaluate _ s => ScriptRes s
  | Race _ => nat
  | AskQuestion _ => string
  | UuidV4 => string
  | FsExists _ => bool
  | Fetch _ _ _ _ => FetchResponse
  | _ => unit
  end.

(** Does the call go to the puppeteer objects (the session's browser, its
    page and frames), or, in the front end, to the server? *)
Definition is_remote (c : Call) : bool :=
  match c with
  | Delay _ | AskQuestion _ | UuidV4 | FsExists _ | Respond _ _
  | HideError | ShowError _ | SetLocation _ => false
  | _ => true
  end.

Record Event : Type := Ev {
  ev_call : Call;
  ev_resp : result (Resp ev_call)
}.

(** ** The registry *)

Record Session : Type := mkSession {
  browser : BrowserId;
  page : PageId
}.

(** [let sessions = {}], keyed by session id: the object's own
    properties. *)
Abbreviation Sessions := (gmap string Session).

(** The members every plain object inherits from [Object.prototype].  For
    one of these names [sessions[id]] is the inherited member (a function,
    or the prototype itself), which is truthy and is no session.  The
    registry above holds the own properties only: what is stated below for
    an id that is not registered is stated for ids other than these. *)
Definition inheritedNames : list string :=
  ["constructor"; "__defineGetter__"; "__defineSetter__"; "hasOwnProperty";
   "__lookupGetter__"; "__lookupSetter__"; "isPrototypeOf";
   "propertyIsEnumerable"; "toString"; "valueOf"; "__proto__";
   "toLocaleString"].

Definition isInherited (id : string) : bool :=
  existsb (String.eqb id) inheritedNames.

(** ** Programs *)

Inductive prog (R : Type) : Type :=
| Ret (r : R)
| Throw (e : string)
| Vis (c : Call) (k : result (Resp c) -> prog R)
| GetSessions (k : Sessions -> prog R)
| PutSessions (s : Sessions) (k : prog R).
Arguments Ret {R} r.
Arguments Throw {R} e.
Arguments Vis {R} c k.
Arguments GetSessions {R} k.
Arguments PutSessions {R} s k.

Fixpoint bind {A B : Type} (p : prog A) (f : A -> prog B) : prog B :=
  match p with
  | Ret a => f a
  | Throw e => Throw e
  | Vis c k => Vis c (fun r => bind (k r) f)
  | GetSessions k => GetSessions (fun s => bind (k s) f)
  | PutSessions s k => PutSessions s (bind k f)
  end.

#[global] Instance prog_ret : MRet prog := @Ret.
#[global] Instance prog_bind : MBind prog := fun A B f p => bind p f.

(** [try { p } catch (e) { h e }] *)
Fixpoint try_catch {A : Type} (p : prog A) (h : string -> prog A) : prog A :=
  match p with
  | Ret a => Ret a
  | Throw e => h e
  | Vis c k => Vis c (fun r => try_catch (k r) h)
  | GetSessions k => GetSessions (fun s => try_catch (k s) h)
  | PutSessions s k => PutSessions s (try_catch k h)
  end.

(** [try { p } finally { f }]: [f] runs either way; an exception of [f]
    replaces the pending one. *)
Definition try_finally {A : Type} (p : prog A) (f : prog unit) : prog A :=
  a ← try_catch p (fun e => f;; Throw e); f;; Ret a.

(** An awaited call: the answer, or the exception thrown. *)
Definition call (c : Call) : prog (Resp c) :=
  Vis c (fun r => match r with Ok a => Ret a | Err e => Throw e end).

Definition delay (ms : Z) : prog unit := call (Delay ms).

(** ** Running a program *)

Inductive outcome (R : Type) : Type :=
| Returned (r : R)
| Thrown (e : string).
Arguments Returned {R} r.
Arguments Thrown {R} e.

(** The oracle answers a call knowing the events so far, oldest first. *)
Definition oracle : Type := list Event -> forall c : Call, result (Resp c).

(** [run o h s p]: run [p] with registry [s] after history [h]; the result is
    the outcome, the registry at the end and the events of this run. *)
Fixpoint run {R : Type} (o : oracle) (h : list Event) (s : Sessions)
    (p : prog R) : outcome R * Sessions * list Event :=
  match p with
  | Ret r => (Returned r, s, [])
  | Throw e => (Thrown e, s, [])
  | Vis c k =>
      let r := o h c in
      let '(out, s', t) := run o (h ++ [Ev c r]) s (k r) in
      (out, s', Ev c r :: t)
  | GetSessions k => run o h s (k s)
  | PutSessions s' k => run o h s' k
  end.

Definition calls (t : list Event) : list Call := map ev_call t.

(** The calls of a trace that reach the browser. *)
Definition remote_calls (t : list Event) : list Call :=
  filter (fun c => is_remote c = true) (calls t).

(** The responses sent during a trace, oldest first. *)
Fixpoint responses (t : list Event) : list (nat * Body) :=
  match t with
  | [] => []
  | Ev (Respond st b) _ :: t' => (st, b) :: responses t'
  | _ :: t' => responses t'
  end.

(** ** Puzzle helpers ([app3.js] lines 39-174, the same text in [app2.js]) *)

Definition downloadPuzzlePiece (browser : BrowserId) (blobUrl : string)
    (sessionId : string) : prog unit :=
  newPage ← call (NewPage browser);
  client ← call (CreateCDPSession newPage);
  try_finally
    (try_catch
       (call (ClientSend client "Page.enable");;
        call (ClientSend client "Page.setDownloadBehavior");;
        call (Goto newPage blobUrl);;
        call (PageEvaluate newPage (DownloadLink sessionId));;
        delay 2000%Z)
       (fun _ => Ret tt))
    (call (ClientDetach client);; call (PageClose newPage)).

Definition handlePuzzleTiles (frame : FrameId) (browser : BrowserId)
    (sessionId : string) : prog bool :=
  tilesExist ← call (FrameEvaluate frame TilesExist);
  (if tilesExist : bool then
     blobUrl ← call (FrameEvaluate frame FirstTileBlobUrl);
     if truthy blobUrl
     then downloadPuzzlePiece browser (default "" blobUrl) sessionId
     else Ret tt
   else Ret tt);;
  Ret false.

(** The [depth] and [path] arguments of the source only feed the log lines
    and are left out. *)
Fixpoint findAndClickStartPuzzleButton (frame : Frame) : prog bool :=
  match frame with
  | FrameNode id children =>
      foundAndClicked ←
        try_catch (call (FrameEvaluate id ClickStartPuzzle))
                  (fun _ => Ret false);
      if foundAndClicked : bool then Ret true
      else
        (fix loop (cs : list Frame) : prog bool :=
           match cs with
           | [] => Ret false
           | childFrame :: rest =>
               found ← findAndClickStartPuzzleButton childFrame;
               if found : bool then Ret true else loop rest
           end) children
  end.

(** The [for] loop over [frame.childFrames()] on its own. *)
Fixpoint searchChildFrames (cs : list Frame) : prog bool :=
  match cs with
  | [] => Ret false
  | childFrame :: rest =>
      found ← findAndClickStartPuzzleButton childFrame;
      if found : bool then Ret true else searchChildFrames rest
  end.

(** ** [handleCaptchaChallenge] ([app3.js] lines 176-265) *)

(** [askQuestion] is declared nowhere in [app3.js] or [app2.js] and
    nothing imports it: evaluating the call throws a ReferenceError, and
    what follows it in the [try] block never runs. *)
Definition askQuestion (prompt : string) : prog string :=
  Throw "askQuestion is not defined".

Definition codePrompt : string :=
  "Please enter the verification code from your Gmail: ".
Definition pinOrTextInput : string := "input[name=pin], input[type=text]".
Definition pinSubmitButton : string :=
  "button.form__submit.form__submit--stretch#pin-submit-button".

(** The body of [if (tilesHandled)], lines 200-251.  [again] is the
    recursive call.  [Some v] stands for [return v]; [None] for leaving the
    [try] through its [catch], on the way to [break]. *)
Definition puzzleSolved (again : nat -> prog (option bool)) (page : PageId)
    (challengeCount : nat) : prog (option (option bool)) :=
  currentUrl ← call (Url page);
  try_catch
    (call (WaitForUrlChange page currentUrl 30000%Z);;
     newUrl ← call (Url page);
     let newChallengeCount := challengeCount + 1 in
     if (2 <=? newChallengeCount)%nat then
       verificationCode ← askQuestion codePrompt;
       call (WaitForSelector page pinOrTextInput false);;
       call (TypeText page pinOrTextInput (Some verificationCode));;
       call (WaitForSelector page pinSubmitButton false);;
       call (Click page pinSubmitButton);;
       Ret (Some (Some true))
     else
       delay 5000%Z;;
       r ← again newChallengeCount;
       Ret (Some r))
    (fun _ => Ret None).

(** [for (const frame of allFrames)], lines 197-254. *)
Fixpoint tilesLoop (again : nat -> prog (option bool)) (page : PageId)
    (browser : BrowserId) (sessionId : string) (challengeCount : nat)
    (allFrames : list FrameId) : prog (option bool) :=
  match allFrames with
  | [] => Ret None
  | frame :: rest =>
      tilesHandled ← handlePuzzleTiles frame browser sessionId;
      if tilesHandled : bool then
        r ← puzzleSolved again page challengeCount;
        match r with
        | Some v => Ret v
        | None => Ret None       (* break *)
        end
      else tilesLoop again page browser sessionId challengeCount rest
  end.

(** One activation of [handleCaptchaChallenge]; [true] is [Some true], and
    falling off the end of the function ([undefined]) is [None]. *)
Definition captchaRound (again : nat -> prog (option bool)) (page : PageId)
    (browser : BrowserId) (sessionId : string) (challengeCount : nat)
    : prog (option bool) :=
  delay 5000%Z;;
  mainFrame ← call (MainFrame page);
  buttonFound ← findAndClickStartPuzzleButton mainFrame;
  if buttonFound : bool then
    delay 2000%Z;;
    allFrames ← call (Frames page);
    tilesLoop again page browser sessionId challengeCount allFrames
  else Ret (Some true).

(** The function calls itself only with [challengeCount + 1 < 2], so
    [2 - challengeCount] activations can follow the current one; the
    recursion is on that number. *)
Fixpoint captchaFrom (remaining : nat) (page : PageId) (browser : BrowserId)
    (sessionId : string) (challengeCount : nat) : prog (option bool) :=
  captchaRound
    (fun n => match remaining with
              | S r => captchaFrom r page browser sessionId n
              | O => Ret None
              end)
    page browser sessionId challengeCount.

Definition handleCaptchaChallenge (page : PageId) (browser : BrowserId)
    (sessionId : string) (challengeCount : nat) : prog (option bool) :=
  captchaFrom (2 - challengeCount) page browser sessionId challengeCount.

(** ** Request handling: shared pieces *)

(** [res.status(status).send(..)] / [.json(..)] when no response was sent
    before: sending does not throw. *)
Definition respond (status : nat) (b : Body) : prog unit :=
  Vis (Respond status b) (fun _ => Ret tt).

(** What [res.send] throws when a response was sent before
    (ERR_HTTP_HEADERS_SENT). *)
Definition headersSent : string :=
  "Cannot set headers after they are sent to the client".

(** [res.status(status).send(..)] in a [catch] block whose [try] block
    sends a response on its way; [sent] tells whether that response was
    sent when the exception came.  If it was, the call is made, nothing
    more reaches the client and the call throws. *)
Definition respondOnce (sent : bool) (status : nat) (b : Body) : prog unit :=
  if sent then Vis (Respond status b) (fun _ => Throw headersSent)
  else respond status b.

(** [try { p; q } catch (err) { hd }] where the last thing [p] does is to
    send the response: the handler is told whether the exception came from
    [q], that is, after the response. *)
Definition try_catch_around_send {A B : Type} (p : prog A) (q : A -> prog B)
    (hd : bool -> string -> prog B) : prog B :=
  r ← try_catch (a ← p; Ret (inl a)) (fun err => Ret (inr err));
  match r with
  | inl a => try_catch (q a) (hd true)
  | inr err => hd false err
  end.

(** [res.status(st).json({ error: msg })] *)
Definition jsonError (msg : string) : Body :=
  SendJson (JObj [("error", JStr msg)]).

(** [sessions[id]], for an [id] that is not one of [inheritedNames]. *)
Definition getSession (id : string) : prog (option Session) :=
  GetSessions (fun s => Ret (s !! id)).

(** [sessions[id] = v] *)
Definition setSession (id : string) (v : Session) : prog unit :=
  GetSessions (fun s => PutSessions (<[id := v]> s) (Ret tt)).

(** [!v] for a request field that is a string or missing. *)
Definition missing (v : option string) : bool := negb (truthy v).

(** [!tileNumber || tileNumber < 1 || tileNumber > 6], for a tile number
    that is an integer or missing. *)
Definition tileInvalid (tileNumber : option Z) : bool :=
  match tileNumber with
  | None => true
  | Some n => (n =? 0)%Z || (n <? 1)%Z || (6 <? n)%Z
  end.

(** Truthiness of [errorBanner && !errorBanner.classList.contains(..)]. *)
Definition bannerShown (hasError : option bool) : bool :=
  match hasError with
  | Some b => b
  | None => false
  end.

Definition jsonOfText (t : option string) : Json :=
  match t with
  | Some s => JStr s
  | None => JNull
  end.

Definition userAgent : string :=
  "Mozilla/5.0 (Windows NT 10.0; Win64; x64) AppleWebKit/537.36 (KHTML, like Gecko) Chrome/91.0.4472.124 Safari/537.36".

Definition deadEndSegment : string := "/login-challenge-submit".

(** Open a browser on the login page and type the credentials in:
    [app3.js] lines 305-322, the same text as [app2.js] lines 299-318.
    The result is the pair of [browser] and [page]. *)
Definition enterCredentials (email password : option string)
    : prog (BrowserId * PageId) :=
  browser ← call Launch;
  page ← call (NewPage browser);
  call (SetUserAgent page userAgent);;
  call (Goto page "https://www.linkedin.com/login");;
  call (WaitForSelector page "#username" true);;
  call (WaitForSelector page "#password" true);;
  call (TypeText page "#username" email);;
  call (TypeText page "#password" password);;
  Ret (browser, page).

(** ** The routes of [app3.js] *)

Module App3.

(** [GET /api/check-puzzle-image], lines 272-287.  The path is the one
    below [__dirname], as the template string gives it and before
    [path.join] normalises it. *)
Definition check_puzzle_image (sessionId : option string) : prog unit :=
  exists_ ← call (FsExists ("public/images/puzzle/puzzle_piece_"
                            +:+ default "undefined" sessionId +:+ ".png"));
  respond 200 (SendJson (JObj [("exists", JBool exists_)])).

(** [POST /api/linkedin/login], lines 289-339. *)
Definition login (sessionId email password : option string) : prog unit :=
  if missing email then respond 400 (Send (JStr "Email is required")) else
  sessionId ← (if missing sessionId then call UuidV4
               else Ret (default "" sessionId));
  existing ← getSession sessionId;
  if existing is Some _ then
    respond 400 (Send (JStr "Session already exists"))
  else
    try_catch_around_send
      (bp ← enterCredentials email password;
       let browser := bp.1 in
       let page := bp.2 in
       call (Click page ".login__form_action_container button");;
       setSession sessionId (mkSession browser page);;
       respond 200 (Send (JStr "1"));;
       Ret bp)
      (fun bp =>
         let browser := bp.1 in
         let page := bp.2 in
         delay 10000%Z;;
         handleCaptchaChallenge page browser sessionId 0;;
         Ret tt)
      (fun sent err => respondOnce sent 500 (SendErr err)).

(** [for (const frame of frames)] of the next route, lines 361-382;
    [true] when a response was sent. *)
Fixpoint tilesHtmlLoop (frames : list FrameId) : prog bool :=
  match frames with
  | [] => Ret false
  | frame :: rest =>
      tilesHtml ← call (FrameEvaluate frame TilesHtml);
      match tilesHtml with
      | Some tiles =>
          respond 200 (SendJson (JObj [("status", JStr "success");
                                       ("tiles", JArr (map JStr tiles))]));;
          Ret true
      | None => tilesHtmlLoop rest
      end
  end.

(** [POST /api/linkedin/security-verification], lines 341-392. *)
Definition security_verification (sessionId : option string) : prog unit :=
  if missing sessionId then
    respond 400 (Send (JStr "Session ID is required"))
  else
    session ← getSession (default "" sessionId);
    match session with
    | None => respond 400 (Send (JStr "Session not found"))
    | Some session =>
        try_catch
          (frames ← call (Frames (page session));
           sent ← tilesHtmlLoop frames;
           if sent : bool then Ret tt
           else respond 404 (jsonError "No puzzle tiles found"))
          (fun err =>
             respond 500 (jsonError ("Failed to get puzzle tiles: " +:+ err)))
    end.

(** What follows a click that landed, lines 431-485; [true] when a
    response was sent (the handler returns), [false] when the loop over
    the frames goes on. *)
Definition afterTileClick (page : PageId) : prog bool :=
  currentUrl ← call (Url page);
  try_catch
    (call (Race [SigNavigation 10000; SigNetworkIdle 10000; SigTimer 10000]);;
     delay 2000%Z;;
     newUrl ← call (Url page);
     let urlChanged := negb (String.eqb newUrl currentUrl) in
     if urlChanged then
       if includes newUrl deadEndSegment then
         respond 200 (Send (JStr "lastcve"));; Ret true
       else
         headerText ← call (PageEvaluate page HeaderText);
         respond 200 (Send (jsonOfText headerText));; Ret true
     else Ret false)
    (fun _ =>
       call (Url page);;            (* read for the log line *)
       finalUrl ← call (Url page);
       if includes finalUrl deadEndSegment then
         respond 200 (Send (JStr "lastcve"));; Ret true
       else Ret false).

(** [for (const frame of allFrames)], lines 416-487. *)
Fixpoint selectTileLoop (page : PageId) (tileNumber : Z)
    (allFrames : list FrameId) : prog bool :=
  match allFrames with
  | [] => Ret false
  | frame :: rest =>
      clicked ← call (FrameEvaluate frame (ClickTile tileNumber));
      sent ← (if clicked : bool then afterTileClick page else Ret false);
      if sent : bool then Ret true else selectTileLoop page tileNumber rest
  end.

(** [POST /api/linkedin/select-tile], lines 394-494. *)
Definition select_tile (sessionId : option string) (tileNumber : option Z)
    : prog unit :=
  if missing sessionId then
    respond 400 (jsonError "Session ID is required")
  else if tileInvalid tileNumber then
    respond 400 (jsonError "Valid tile number (1-6) is required")
  else
    session ← getSession (default "" sessionId);
    match session with
    | None => respond 400 (jsonError "Session not found")
    | Some session =>
        try_catch
          (allFrames ← call (Frames (page session));
           sent ← selectTileLoop (page session) (default 0%Z tileNumber)
                                 allFrames;
           if sent : bool then Ret tt
           else respond 404 (jsonError "No puzzle tiles found"))
          (fun _ => respond 500 (jsonError "Failed to select tile"))
    end.

(** Enter the code and submit it, lines 515-543 (and 584-612): the value
    of [hasError]. *)
Definition submitPin (page : PageId) (code : string) : prog (option bool) :=
  call (WaitForSelector page "input[name=pin]" false);;
  call (WaitForSelector page "button[type=submit]" false);;
  call (PageEvaluate page (ClearInput "input[name=pin]"));;
  call (TypeText page "input[name=pin]" (Some code));;
  call (ClickAndWaitForNavigation page "button[type=submit]" true);;
  delay 2000%Z;;
  call (PageEvaluate page HasErrorBanner).

(** [POST /api/linkedin/verify-code], lines 496-563. *)
Definition verify_code (code sessionId : option string) : prog unit :=
  if missing sessionId then
    respond 400 (jsonError "Session ID is required")
  else if missing code then
    respond 400 (jsonError "Verification code is required")
  else
    session ← getSession (default "" sessionId);
    match session with
    | None => respond 400 (jsonError "Session not found")
    | Some session =>
        try_catch
          (hasError ← submitPin (page session) (default "" code);
           if bannerShown hasError then
             respond 400
               (Send (JStr "Invalid verification code. Please try again."))
           else
             currentUrl ← call (Url (page session));
             if includes currentUrl deadEndSegment then
               respond 200 (Send (JStr "lastcve"))
             else respond 200 (Send (JStr "1")))
          (fun _ => respond 500 (jsonError "Failed to submit verification code"))
    end.

(** [POST /api/linkedin/verify-sms], lines 565-639.  The test of the
    address for [feed] only writes a log line. *)
Definition verify_sms (code sessionId : option string) : prog unit :=
  if missing sessionId then
    respond 400 (jsonError "Session ID is required")
  else if missing code then
    respond 400 (jsonError "Verification code is required")
  else
    session ← getSession (default "" sessionId);
    match session with
    | None => respond 400 (jsonError "Session not found")
    | Some session =>
        try_catch
          (hasError ← submitPin (page session) (default "" code);
           if bannerShown hasError then
             respond 400
               (Send (JStr "Invalid verification code. Please try again."))
           else
             currentUrl ← call (Url (page session));
             if includes currentUrl deadEndSegment then
               respond 200 (Send (JStr "lastcve"))
             else respond 200 (Send (JStr "1")))
          (fun _ => respond 500 (jsonError "Failed to submit verification code"))
    end.

(** Fill in the phone form and submit it, lines 664-696 (and 757-789):
    the value of [hasError]. *)
Definition submitPhone (page : PageId) (phone countryCode : string)
    : prog (option bool) :=
  call (WaitForSelector page "#select-register-phone-country" false);;
  call (WaitForSelector page "#register-verification-phone-number" false);;
  call (WaitForSelector page "#register-phone-submit-button" false);;
  call (SelectOption page "#select-register-phone-country" countryCode);;
  call (PageEvaluate page (ClearInput "#register-verification-phone-number"));;
  call (TypeText page "#register-verification-phone-number" (Some phone));;
  call (ClickAndWaitForNavigation page "#register-phone-submit-button" true);;
  delay 2000%Z;;
  call (PageEvaluate page HasErrorBanner).

(** [POST /api/linkedin/verify-phone], lines 641-732. *)
Definition verify_phone (phone countryCode sessionId : option string)
    : prog unit :=
  if missing sessionId then
    respond 400 (jsonError "Session ID is required")
  else if missing phone then
    respond 400 (jsonError "Phone number is required")
  else if missing countryCode then
    respond 400 (jsonError "Country code is required")
  else
    session ← getSession (default "" sessionId);
    match session with
    | None => respond 400 (jsonError "Session not found")
    | Some session =>
        try_catch
          (hasError ← submitPhone (page session) (default "" phone)
                                  (default "" countryCode);
           if bannerShown hasError then
             errorMessage ← call (PageEvaluate (page session) ErrorMessage);
             respond 400 (Send (JStr errorMessage))
           else
             currentUrl ← call (Url (page session));
             if includes currentUrl deadEndSegment then
               respond 200 (Send (JStr "lastcve"))
             else
               headerText ← call (PageEvaluate (page session) HeaderText);
               if truthy headerText
                  && includes (default "" headerText) "verify your phone number"
               then respond 200 (Send (JStr "Let's verify your phone number"))
               else respond 200 (Send (JStr "1")))
          (fun _ => respond 500 (jsonError "Failed to submit phone number"))
    end.

(** [POST /api/linkedin/update-phone], lines 734-815. *)
Definition update_phone (phone countryCode sessionId : option string)
    : prog unit :=
  if missing sessionId then
    respond 400 (jsonError "Session ID is required")
  else if missing phone then
    respond 400 (jsonError "Phone number is required")
  else if missing countryCode then
    respond 400 (jsonError "Country code is required")
  else
    session ← getSession (default "" sessionId);
    match session with
    | None => respond 400 (jsonError "Session not found")
    | Some session =>
        try_catch
          (hasError ← submitPhone (page session) (default "" phone)
                                  (default "" countryCode);
           if bannerShown hasError then
             errorMessage ← call (PageEvaluate (page session) ErrorMessage);
             respond 400 (jsonError errorMessage)
           else
             currentUrl ← call (Url (page session));
             if includes currentUrl deadEndSegment then
               respond 200 (SendJson (JObj [("redirect", JStr "lastcve")]))
             else respond 200 (SendJson (JObj [("success", JBool true)])))
          (fun _ => respond 500 (jsonError "Failed to update phone number"))
    end.

(** [POST /api/linkedin/check-login-status], lines 817-870. *)
Definition check_login_status (sessionId : option string) : prog unit :=
  if missing sessionId then respond 200 (Send (JStr "0")) else
  session ← getSession (default "" sessionId);
  match session with
  | None => respond 200 (Send (JStr "0"))
  | Some session =>
      try_catch
        (currentUrl ← call (Url (page session));
         if includes currentUrl "feed" then respond 200 (Send (JStr "1"))
         else
           r ← try_catch
                 (headerText ← call (PageEvaluate (page session) HeaderText);
                  Ret (Some (if truthy headerText then default "" headerText
                             else "0")))
                 (fun evalError =>
                    if includes evalError "Execution context was destroyed"
                    then respond 200 (Send (JStr "1"));; Ret None
                    else Throw evalError);
           match r with
           | Some result_ => respond 200 (Send (JStr result_))
           | None => Ret tt
           end)
        (fun _ => respond 200 (Send (JStr "0")))
  end.

(** The routes, as registered with [app.get] / [app.post]. *)
Inductive Request : Type :=
| CheckPuzzleImage (sessionId : option string)
| Login (sessionId email password : option string)
| SecurityVerification (sessionId : option string)
| SelectTile (sessionId : option string) (tileNumber : option Z)
| VerifyCode (code sessionId : option string)
| VerifySms (code sessionId : option string)
| VerifyPhone (phone countryCode sessionId : option string)
| UpdatePhone (phone countryCode sessionId : option string)
| CheckLoginStatus (sessionId : option string).

Definition handle (req : Request) : prog unit :=
  match req with
  | CheckPuzzleImage sessionId => check_puzzle_image sessionId
  | Login sessionId email password => login sessionId email password
  | SecurityVerification sessionId => security_verification sessionId
  | SelectTile sessionId tileNumber => select_tile sessionId tileNumber
  | VerifyCode code sessionId => verify_code code sessionId
  | VerifySms code sessionId => verify_sms code sessionId
  | VerifyPhone phone countryCode sessionId =>
      verify_phone phone countryCode sessionId
  | UpdatePhone phone countryCode sessionId =>
      update_phone phone countryCode sessionId
  | CheckLoginStatus sessionId => check_login_status sessionId
  end.

End App3.

(** ** The login route of [app2.js] (lines 283-348) *)

Module App2.

Definition passwordErrorSelector : string := "#error-for-password".

Definition login (sessionId email password : option string) : prog unit :=
  if missing email then respond 400 (Send (JStr "Email is required")) else
  sessionId ← (if missing sessionId then call UuidV4
               else Ret (default "" sessionId));
  existing ← getSession sessionId;
  if existing is Some _ then
    respond 400 (Send (JStr "Session already exists"))
  else
    try_catch
      (bp ← enterCredentials email password;
       let browser := bp.1 in
       let page := bp.2 in
       call (ClickAndWaitForNavigation page
               ".login__form_action_container button" false);;
       passwordError ← call (Query page passwordErrorSelector);
       result_ ← (if passwordError : bool then Ret "0"
                  else
                    delay 5000%Z;;
                    setSession sessionId (mkSession browser page);;
                    handleCaptchaChallenge page browser sessionId 0;;
                    Ret "1");
       respond 200 (Send (JStr result_)))
      (fun err => respond 500 (SendErr err)).

End App2.

(** ** The phone form of the front end ([src/unnamed/part_000]) *)

Module FrontEnd.

(** The white space and line terminators of JavaScript among the code
    units below 256. *)
Definition isWhiteSpace (a : ascii) : bool :=
  let n := nat_of_ascii a in
  ((9 <=? n) && (n <=? 13) || (n =? 32) || (n =? 160))%nat.

Fixpoint trimStart (s : string) : string :=
  match s with
  | String a s' => if isWhiteSpace a then trimStart s' else s
  | EmptyString => EmptyString
  end.

Fixpoint trimEnd (s : string) : string :=
  match s with
  | String a s' =>
      match trimEnd s' with
      | EmptyString => if isWhiteSpace a then EmptyString
                       else String a EmptyString
      | t => String a t
      end
  | EmptyString => EmptyString
  end.

(** [s.trim()] *)
Definition trim (s : string) : string := trimEnd (trimStart s).

(** [handleSubmit], lines 28-73.  [phoneValue] and [countryValue] are the
    values of the two form fields and [sessionId] the query parameter, all
    read when the function starts. *)
Definition handleSubmit (phoneValue countryValue : string)
    (sessionId : option string) : prog unit :=
  call HideError;;
  let phone := trim phoneValue in
  let countryCode := countryValue in
  if String.eqb phone "" then call (ShowError "Please enter a phone number")
  else if (String.length phone <? 10)%nat then
    call (ShowError "Please enter a valid phone number")
  else
    try_catch
      (response ← call (Fetch "/api/linkedin/update-phone" phone countryCode
                              sessionId);
       if negb (resp_ok response) then Throw "Network response was not ok"
       else
         match resp_error response with
         | Err e => Throw e
         | Ok dataError =>
             if truthy dataError then call (ShowError (default "" dataError))
             else call (SetLocation "/")
         end)
      (fun _ => call (ShowError "An error occurred. Please try again.")).

End FrontEnd.

(** ** Frame search: the order of the traversal *)

(** The frames of a tree, a frame before its children, the children in
    document order, a child's subtree before the next child. *)
Fixpoint preorder (f : Frame) : list FrameId :=
  match f with
  | FrameNode id children =>
      id :: (fix go (cs : list Frame) : list FrameId :=
               match cs with
               | [] => []
               | c :: rest => preorder c ++ go rest
               end) children
  end.

Fixpoint preorderAll (cs : list Frame) : list FrameId :=
  match cs with
  | [] => []
  | c :: rest => preorder c ++ preorderAll rest
  end.

(** The event is an evaluation of the start-puzzle predicate that answered
    [true]. *)
Definition matched (e : Event) : bool :=
  match e with
  | Ev c r =>
      match c as c0 return result (Resp c0) -> bool with
      | FrameEvaluate _ s =>
          match s as s0 return result (ScriptRes s0) -> bool with
          | ClickStartPuzzle =>
              fun r => match r with Ok b => b | Err _ => false end
          | _ => fun _ => false
          end
      | _ => fun _ => false
      end r
  end.

(** Ask the predicate at the frames of a list, one after the other, up to
    and including the first that answers [true]. *)
Fixpoint scan (o : oracle) (h : list Event) (ids : list FrameId)
    : bool * list Event :=
  match ids with
  | [] => (false, [])
  | i :: rest =>
      let e := Ev (FrameEvaluate i ClickStartPuzzle)
                  (o h (FrameEvaluate i ClickStartPuzzle)) in
      if matched e then (true, [e])
      else let '(b, t) := scan o (h ++ [e]) rest in (b, e :: t)
  end.

(** ** Notions used in the statements *)

(** The calls made by the body of [if (tilesHandled)] in
    [handleCaptchaChallenge] (lines 200-251), the 5 s pause apart: reading
    the address, waiting for it to change, asking for the code and typing
    it in.  The body starts with [page.url()]. *)
Definition inSolvedBranch (c : Call) : bool :=
  match c with
  | Url _ | WaitForUrlChange _ _ _ | AskQuestion _
  | WaitForSelector _ _ _ | TypeText _ _ _ | Click _ _ => true
  | _ => false
  end.

(** The kinds of call [handlePuzzleTiles] and [downloadPuzzlePiece] make. *)
Definition isTileHandling (c : Call) : bool :=
  match c with
  | FrameEvaluate _ _ | PageEvaluate _ _ | NewPage _ | CreateCDPSession _
  | ClientSend _ _ | Goto _ _ | Delay _ | ClientDetach _ | PageClose _ => true
  | _ => false
  end.

Definition isMainFrame (c : Call) : bool :=
  match c with
  | MainFrame _ => true
  | _ => false
  end.

(** How many times a trace starts a search for the start control: each
    activation of [handleCaptchaChallenge] reads [page.mainFrame()] once. *)
Definition searchRounds (t : list Event) : nat :=
  length (filter (fun c => isMainFrame c = true) (calls t)).

Definition isStartPuzzleEvaluation (c : Call) : bool :=
  match c with
  | FrameEvaluate _ ClickStartPuzzle => true
  | _ => false
  end.


(** The session id a request names. *)
Definition sessionIdOf (req : App3.Request) : option string :=
  match req with
  | App3.CheckPuzzleImage sessionId | App3.Login sessionId _ _
  | App3.SecurityVerification sessionId | App3.SelectTile sessionId _
  | App3.VerifyCode _ sessionId | App3.VerifySms _ sessionId
  | App3.VerifyPhone _ _ sessionId | App3.UpdatePhone _ _ sessionId
  | App3.CheckLoginStatus sessionId => sessionId
  end.

(** The routes that act on an existing session. *)
Definition isStageOperation (req : App3.Request) : bool :=
  match req with
  | App3.CheckPuzzleImage _ | App3.Login _ _ _ => false
  | _ => true
  end.

(** The fields of the request other than the session id pass the checks of
    its route. *)
Definition otherFieldsValid (req : App3.Request) : bool :=
  match req with
  | App3.SelectTile _ tileNumber => negb (tileInvalid tileNumber)
  | App3.VerifyCode code _ | App3.VerifySms code _ => truthy code
  | App3.VerifyPhone phone countryCode _
  | App3.UpdatePhone phone countryCode _ => truthy phone && truthy countryCode
  | _ => true
  end.

(** What each route answers when the session id is not in the registry. *)
Definition notFoundReply (req : App3.Request) : nat * Body :=
  match req with
  | App3.SecurityVerification _ => (400, Send (JStr "Session not found"))
  | App3.CheckLoginStatus _ => (200, Send (JStr "0"))
  | _ => (400, jsonError "Session not found")
  end.

(** The exception an event ended with, if it did. *)
Definition threw (e : Event) : option string :=
  match ev_resp e with
  | Err msg => Some msg
  | Ok _ => None
  end.

(** The exception [e] is one that a call of the trace threw. *)
Definition thrownBy (e : string) (t : list Event) : Prop :=
  Exists (fun ev => threw ev = Some e) t.

(** Answers for an oracle that has nothing to say. *)
Definition defaultScriptRes (s : Script) : ScriptRes s :=
  match s with
  | TilesExist => false
  | FirstTileBlobUrl => None
  | DownloadLink _ => tt
  | ClickStartPuzzle => false
  | TilesHtml => None
  | ClickTile _ => false
  | HeaderText => None
  | ClearInput _ => tt
  | HasErrorBanner => None
  | ErrorMessage => "Invalid phone number. Please try again."
  end.

Definition defaultResp (c : Call) : Resp c :=
  match c with
  | Launch => 1
  | NewPage _ => 1
  | CreateCDPSession _ => 1
  | ClientSend _ _ => tt
  | ClientDetach _ => tt
  | PageClose _ => tt
  | SetUserAgent _ _ => tt
  | Goto _ _ => tt
  | WaitForSelector _ _ _ => tt
  | TypeText _ _ _ => tt
  | Click _ _ => tt
  | SelectOption _ _ _ => tt
  | Query _ _ => false
  | Url _ => "https://www.linkedin.com/checkpoint/challenge"
  | MainFrame _ => FrameNode 0 []
  | Frames _ => [0]
  | FrameEvaluate _ s => defaultScriptRes s
  | PageEvaluate _ s => defaultScriptRes s
  | WaitForUrlChange _ _ _ => tt
  | ClickAndWaitForNavigation _ _ _ => tt
  | Race _ => 2
  | Delay _ => tt
  | AskQuestion _ => "000000"
  | UuidV4 => "generated-id"
  | FsExists _ => false
  | Respond _ _ => tt
  | HideError => tt
  | ShowError _ => tt
  | Fetch _ _ _ _ => mkFetchResponse true (Ok None)
  | SetLocation _ => tt
  end.

(** A page where nothing is found and nothing fails. *)
Definition quiet : oracle := fun _ c => Ok (defaultResp c).

(** Frames of which frame 1 has navigated away and cannot be queried and
    frame 3 has the start control. *)
Definition flakyFrames : oracle :=
  fun _ c =>
    match c as c0 return result (Resp c0) -> result (Resp c0) with
    | FrameEvaluate f s =>
        match s as s0 return result (ScriptRes s0) -> result (ScriptRes s0) with
        | ClickStartPuzzle =>
            fun _ => if (f =? 1)%nat then Err "frame detached"
                     else Ok (f =? 3)%nat
        | _ => fun d => d
        end
    | _ => fun d => d
    end (Ok (defaultResp c)).

(** A page that shows the puzzle: every frame has a start control, six
    tiles and a first tile with a blob image. *)
Definition puzzleScriptRes (s : Script) : ScriptRes s :=
  match s with
  | TilesExist => true
  | FirstTileBlobUrl => Some "blob:https://www.linkedin.com/tile-1"
  | ClickStartPuzzle => true
  | s' => defaultScriptRes s'
  end.

Definition puzzlePage : oracle :=
  fun _ c =>
    Ok (match c as c0 return Resp c0 -> Resp c0 with
        | FrameEvaluate _ s => fun _ => puzzleScriptRes s
        | _ => fun d => d
        end (defaultResp c)).


(** Every run of [p] from registry [s] ends with a registry in [P]. *)
Definition ends_in {R : Type} (P : Sessions -> Prop) (s : Sessions)
    (p : prog R) : Prop :=
  forall (o : oracle) (h : list Event), P (run o h s p).1.2.

(** [p] leaves the registry as it finds it. *)
Definition keeps {R : Type} (p : prog R) : Prop :=
  forall s : Sessions, ends_in (fun s' => s' = s) s p.

(** The budget of a raced signal. *)
Definition budget (sg : Signal) : Z :=
  match sg with
  | SigNavigation timeout => timeout
  | SigNetworkIdle timeout => timeout
  | SigTimer ms => ms
  end.

(** The race of [select-tile]. *)
Definition tileRace : Call :=
  Race [SigNavigation 10000; SigNetworkIdle 10000; SigTimer 10000].

Definition isRace (c : Call) : bool :=
  match c with
  | Race _ => true
  | _ => false
  end.

(** A page whose tiles can be clicked and which has moved to the feed once
    a race has been waited for. *)
Definition navigatingPage : oracle :=
  fun h c =>
    Ok (match c as c0 return Resp c0 -> Resp c0 with
        | Url _ =>
            fun d => if existsb isRace (calls h)
                     then "https://www.linkedin.com/feed/" else d
        | FrameEvaluate _ s =>
            match s as s0 return ScriptRes s0 -> ScriptRes s0 with
            | ClickTile _ => fun _ => true
            | _ => fun d => d
            end
        | _ => fun d => d
        end (defaultResp c)).

(** The login page after a wrong password: the rejection indicator
    [#error-for-password] is there. *)
Definition rejectingPage : oracle :=
  fun _ c =>
    Ok (match c as c0 return Resp c0 -> Resp c0 with
        | Query _ _ => fun _ => true
        | _ => fun d => d
        end (defaultResp c)).

Definition isQuery (c : Call) : bool :=
  match c with
  | Query _ _ => true
  | _ => false
  end.

(** ** What a program answers *)

(** Every run of [p] ends with an outcome and a list of responses sent that
    satisfy [P]. *)
Definition replies {R : Type} (P : outcome R -> list (nat * Body) -> Prop)
    (p : prog R) : Prop :=
  forall (o : oracle) (h : list Event) (s : Sessions),
    P (run o h s p).1.1 (responses (run o h s p).2).

(** [p] sends no response. *)
Definition silent {R : Type} (p : prog R) : Prop :=
  replies (fun _ l => l = []) p.

Definition isRespond (c : Call) : bool :=
  match c with
  | Respond _ _ => true
  | _ => false
  end.

(** A loop that returns [true] exactly when it has sent its one response. *)
Definition sentIfTrue (out : outcome bool) (l : list (nat * Body)) : Prop :=
  match out with
  | Returned true => length l = 1
  | _ => l = []
  end.

(** How a request ends.  A route that acts on a session returns having
    sent one response.  So does [login], unless a call fails after it sent
    1: then its [catch] sends again, that call throws and the handler ends
    with its exception, the client having got the 1 and nothing else.  The
    two calls made outside any [try], [uuidv4()] in [login] and the test
    of the file system in the image check, end the handler with nothing
    sent if they throw. *)
Definition sendsOnce (req : App3.Request) (out : outcome unit)
    (l : list (nat * Body)) : Prop :=
  match req with
  | App3.Login sessionId _ _ =>
      (out = Returned tt /\ exists r, l = [r]) \/
      (out = Thrown headersSent /\
       exists err, l = [(200, Send (JStr "1")); (500, SendErr err)]) \/
      (missing sessionId = true /\ l = [] /\ exists e, out = Thrown e)
  | App3.CheckPuzzleImage _ =>
      (out = Returned tt /\ exists r, l = [r]) \/
      (l = [] /\ exists e, out = Thrown e)
  | _ => out = Returned tt /\ exists r, l = [r]
  end.

(** What [login] has sent when its [try] block gets past [res.send]. *)
Definition sentOne (out : outcome (BrowserId * PageId))
    (l : list (nat * Body)) : Prop :=
  match out with
  | Returned _ => l = [(200, Send (JStr "1"))]
  | Thrown _ => l = []
  end.

(** The steps of the [try] block of [downloadPuzzlePiece], lines 81-97. *)
Definition downloadSteps (client : ClientId) (newPage : PageId)
    (blobUrl sessionId : string) : list Call :=
  [ClientSend client "Page.enable";
   ClientSend client "Page.setDownloadBehavior";
   Goto newPage blobUrl;
   PageEvaluate newPage (DownloadLink sessionId);
   Delay 2000].

(** A page on which reading the header fails because it is navigating. *)
Definition navigatingAway : oracle :=
  fun _ c =>
    match c as c0 return result (Resp c0) -> result (Resp c0) with
    | PageEvaluate _ s =>
        match s as s0 return result (ScriptRes s0) -> result (ScriptRes s0) with
        | HeaderText =>
            fun _ => Err "Execution context was destroyed, most likely because of a navigation."
        | _ => fun d => d
        end
    | _ => fun d => d
    end (Ok (defaultResp c)).

Definition isNewPage (c : Call) : bool :=
  match c with
  | NewPage _ => true
  | _ => false
  end.

(** A browser in which the blob address cannot be opened. *)
Definition brokenBlob : oracle :=
  fun _ c =>
    match c as c0 return result (Resp c0) -> result (Resp c0) with
    | Goto _ _ => fun _ => Err "net::ERR_FILE_NOT_FOUND"
    | _ => fun d => d
    end (Ok (defaultResp c)).

(** A page that stays on the dead-end address while the wait for a
    navigation times out. *)
Definition timedOutOnDeadEnd : oracle :=
  fun _ c =>
    match c as c0 return result (Resp c0) -> result (Resp c0) with
    | Url _ =>
        fun _ =>
          Ok "https://www.linkedin.com/checkpoint/lg/login-challenge-submit"
    | Race _ => fun _ => Err "Navigation timeout of 10000 ms exceeded"
    | _ => fun d => d
    end (Ok (defaultResp c)).

(** The events of frames whose evaluation found no tiles. *)
Definition noTilesIn (frames : list FrameId) : list Event :=
  map (fun f => Ev (FrameEvaluate f TilesHtml) (Ok None)) frames.

Definition tilesFoundBody (tiles : list string) : Body :=
  SendJson (JObj [("status", JStr "success"); ("tiles", JArr (map JStr tiles))]).

(** Three frames, the second and the third of which show tiles. *)
Definition tilesInLaterFrames : oracle :=
  fun _ c =>
    match c as c0 return result (Resp c0) -> result (Resp c0) with
    | Frames _ => fun _ => Ok [1; 2; 3]
    | FrameEvaluate f s =>
        match s as s0 return result (ScriptRes s0) -> result (ScriptRes s0) with
        | TilesHtml =>
            fun _ => if (f =? 1)%nat then Ok None
                     else if (f =? 2)%nat then Ok (Some ["<button>a</button>"])
                     else Ok (Some ["<button>b</button>"])
        | _ => fun d => d
        end
    | _ => fun d => d
    end (Ok (defaultResp c)).

Definition isClickTile (c : Call) : bool :=
  match c with
  | FrameEvaluate _ (ClickTile _) => true
  | _ => false
  end.

(** Two frames in which the click lands, on a page whose address stays the
    same. *)
Definition stillPage : oracle :=
  fun _ c =>
    match c as c0 return result (Resp c0) -> result (Resp c0) with
    | Frames _ => fun _ => Ok [1; 2]
    | FrameEvaluate f s =>
        match s as s0 return result (ScriptRes s0) -> result (ScriptRes s0) with
        | ClickTile _ => fun _ => Ok true
        | _ => fun d => d
        end
    | _ => fun d => d
    end (Ok (defaultResp c)).

(** A browser that does as told, and a [uuidv4] that returns an id. *)
Definition freshId : oracle :=
  fun _ c =>
    match c as c0 return Resp c0 -> result (Resp c0) with
    | UuidV4 => fun _ => Ok "0b9c2a4e-6d1f-4c3a-8e57-2f1d9a7b3c10"
    | _ => fun d => Ok d
    end (defaultResp c).

(** ** The phone form against its route *)

(** [response.ok]: the status is in the range 200-299. *)
Definition statusOk (st : nat) : bool := ((200 <=? st) && (st <=? 299))%nat.

(** [obj[name]] for an object written as a literal. *)
Fixpoint field {A : Type} (name : string) (fields : list (string * A))
    : option A :=
  match fields with
  | [] => None
  | (k, v) :: rest => if String.eqb k name then Some v else field name rest
  end.

(** What [fetch] hands to the form for a response sent with [res.json]:
    [response.ok] and the [error] field of the parsed body, when that field
    is a string or is not there. *)
Definition fetchResponseOf (st : nat) (b : Body) : option FetchResponse :=
  match b with
  | SendJson (JObj fields) =>
      match field "error" fields with
      | None => Some (mkFetchResponse (statusOk st) (Ok None))
      | Some (JStr m) => Some (mkFetchResponse (statusOk st) (Ok (Some m)))
      | Some _ => None
      end
  | _ => None
  end.

(** The last thing the form does with a response of the given status. *)
Definition formReaction (st : nat) : Call :=
  if statusOk st then SetLocation "/"
  else ShowError "An error occurred. Please try again.".

(** The form's side of a server whose pages are driven by [o] and whose
    registry is [s]: [fetch] is answered by the route. *)
Definition served (o : oracle) (s : Sessions) : oracle :=
  fun _ c =>
    match c as c0 return Resp c0 -> result (Resp c0) with
    | Fetch _ phone countryCode sessionId =>
        fun _ =>
          match responses (run o [] s (App3.update_phone (Some phone)
                                         (Some countryCode) sessionId)).2 with
          | [(st, b)] =>
              match fetchResponseOf st b with
              | Some r => Ok r
              | None => Err "Unexpected token"
              end
          | _ => Err "Failed to fetch"
          end
    | _ => fun d => Ok d
    end (defaultResp c).

(** A page that shows the error banner after the phone was submitted. *)
Definition rejectingPhone : oracle :=
  fun _ c =>
    match c as c0 return Resp c0 -> result (Resp c0) with
    | PageEvaluate _ s =>
        match s as s0 return ScriptRes s0 -> result (ScriptRes s0) with
        | HasErrorBanner => fun _ => Ok (Some true)
        | ErrorMessage => fun _ => Ok "Please enter a valid phone number."
        | _ => fun d => Ok d
        end
    | _ => fun d => Ok d
    end (defaultResp c).


(** The trace ends with the one response of the run. *)
Definition endsWithAnswer (t : list Event) : Prop :=
  exists t' st b r,
    t = t' ++ [Ev (Respond st b) r] /\ responses t' = [].

(** A program that always returns, and that has sent its one response as
    the last thing it did. *)
Definition answersLast {R} (p : prog R) : Prop :=
  forall (o : oracle) (h : list Event) (s : Sessions),
    match (run o h s p).1.1 with
    | Returned _ => endsWithAnswer (run o h s p).2
    | Thrown _ => False
    end.

(** ** Saving the cookies ([app3.js] lines 872-1039) *)

Module Cookies.

(** The JavaScript values that occur in a cookie and in what is saved. *)
Inductive Value : Type :=
| Undefined
| Null
| Bool (b : bool)
| Num (n : Z)
| Str (s : string).

(** Truthiness, for [v || d]. *)
Definition truthy (v : Value) : bool :=
  match v with
  | Undefined | Null => false
  | Bool b => b
  | Num n => negb (n =? 0)%Z
  | Str s => negb (String.eqb s "")
  end.

(** [v || d] *)
Definition or (v d : Value) : Value := if truthy v then v else d.

(** A cookie as [page.cookies()] gives it: four strings, and the fields the
    last [return] of the formatter reads, which may hold anything. *)
Record Cookie : Type := mkCookie {
  name : string;
  value : string;
  domain : string;
  path : string;
  hostOnly : Value;
  secure : Value;
  httpOnly : Value;
  sameSite : Value;
  session : Value;
  firstPartyDomain : Value;
  partitionKey : Value;
  storeId : Value
}.

(** An object: its own keys in insertion order. *)
Definition Obj : Type := list (string * Value).

(** [obj[k] = v] on an ordinary object: a key that is there keeps its
    place. *)
Fixpoint set (k : string) (v : Value) (obj : Obj) : Obj :=
  match obj with
  | [] => [(k, v)]
  | (k', v') :: rest =>
      if String.eqb k' k then (k', v) :: rest else (k', v') :: set k v rest
  end.

(** An object literal [{ k1: v1, k2: v2, ... }], in which a key may be
    written twice. *)
Definition literal (fields : list (string * Value)) : Obj :=
  fold_left (fun obj kv => set kv.1 kv.2 obj) fields [].

Definition allowed : list string :=
  ["li_at"; "JSESSIONID"; "bscookie"; "bcookie"; "li_rm"; "fptctx2"; "dfpfpt"].

(** [allowed.includes(cookie.name)] *)
Definition isAllowed (cookie : Cookie) : bool :=
  existsb (String.eqb (name cookie)) allowed.

(** The callback of [filteredCookies.map], lines 888-1030. *)
Definition format (cookie : Cookie) : Obj :=
  if String.eqb (name cookie) "li_at" then
    literal [("domain", Str (domain cookie));
             ("expirationDate", Num 1778941725);
             ("hostOnly", Bool false);
             ("httpOnly", Bool true);
             ("name", Str (name cookie));
             ("path", Str (path cookie));
             ("sameSite", Str "no_restriction");
             ("secure", Bool true);
             ("session", Bool false);
             ("storeId", Null);
             ("value", Str (value cookie))]
  else if String.eqb (name cookie) "JSESSIONID" then
    literal [("domain", Str (domain cookie));
             ("value", Str (value cookie));
             ("name", Str (name cookie));
             ("domain", Str ".www.linkedin.com");
             ("hostOnly", Bool false);
             ("path", Str "/");
             ("secure", Bool true);
             ("httpOnly", Bool false);
             ("sameSite", Str "no_restriction");
             ("session", Bool false);
             ("firstPartyDomain", Str EmptyString);
             ("partitionKey", Null);
             ("expirationDate", Num 1755181725);
             ("storeId", Null)]
  else if String.eqb (name cookie) "bscookie" then
    literal [("domain", Str (domain cookie));
             ("value", Str (value cookie));
             ("name", Str (name cookie));
             ("hostOnly", Bool false);
             ("path", Str "/");
             ("secure", Bool true);
             ("httpOnly", Bool true);
             ("sameSite", Str "no_restriction");
             ("session", Bool false);
             ("firstPartyDomain", Str EmptyString);
             ("partitionKey", Null);
             ("expirationDate", Num 1778941781);
             ("storeId", Null)]
  else if String.eqb (name cookie) "bcookie" then
    literal [("domain", Str (domain cookie));
             ("value", Str (value cookie));
             ("name", Str (name cookie));
             ("hostOnly", Bool false);
             ("path", Str "/");
             ("secure", Bool true);
             ("httpOnly", Bool false);
             ("sameSite", Str "no_restriction");
             ("session", Bool false);
             ("firstPartyDomain", Str EmptyString);
             ("partitionKey", Null);
             ("expirationDate", Num 1778941781);
             ("storeId", Null)]
  else if String.eqb (name cookie) "li_rm" then
    literal [("domain", Str (domain cookie));
             ("value", Str (value cookie));
             ("name", Str (name cookie));
             ("hostOnly", Bool false);
             ("path", Str "/");
             ("secure", Bool true);
             ("httpOnly", Bool true);
             ("sameSite", Str "no_restriction");
             ("session", Bool false);
             ("firstPartyDomain", Str EmptyString);
             ("partitionKey", Null);
             ("expirationDate", Num 1778941725);
             ("storeId", Null)]
  else if String.eqb (name cookie) "fptctx2" then
    literal [("domain", Str (domain cookie));
             ("value", Str (value cookie));
             ("name", Str (name cookie));
             ("hostOnly", Bool false);
             ("path", Str "/");
             ("secure", Bool true);
             ("httpOnly", Bool true);
             ("sameSite", Str "no_restriction");
             ("session", Bool true);
             ("firstPartyDomain", Str EmptyString);
             ("partitionKey", Null);
             ("storeId", Null)]
  else if String.eqb (name cookie) "dfpfpt" then
    literal [("domain", Str (domain cookie));
             ("value", Str (value cookie));
             ("name", Str (name cookie));
             ("hostOnly", Bool false);
             ("path", Str "/");
             ("secure", Bool true);
             ("httpOnly", Bool true);
             ("sameSite", Str "no_restriction");
             ("session", Bool false);
             ("firstPartyDomain", Str EmptyString);
             ("partitionKey", Null);
             ("expirationDate", Num 1778928896);
             ("storeId", Null)]
  else
    literal [("name", Str (name cookie));
             ("value", Str (value cookie));
             ("domain", Str (domain cookie));
             ("hostOnly", hostOnly cookie);
             ("path", Str (path cookie));
             ("secure", secure cookie);
             ("httpOnly", httpOnly cookie);
             ("sameSite", sameSite cookie);
             ("session", or (session cookie) (Bool false));
             ("firstPartyDomain", or (firstPartyDomain cookie) (Str EmptyString));
             ("partitionKey", or (partitionKey cookie) Null);
             ("storeId", or (storeId cookie) Null)].

(** [formattedCookies], lines 874-1030. *)
Definition formattedCookies (cookies : list Cookie) : list Obj :=
  map format (List.filter isAllowed cookies).

(** What [collectAndSaveCookies] hands to [fs.writeFileSync]: the file
    (below [__dirname], before [path.join] normalises it) and the array
    that [JSON.stringify] renders.  [cookies] is the outcome of
    [page.cookies()]; when that throws, the [catch] logs the error and
    nothing is written. *)
Definition collectAndSaveCookies (cookies : result (list Cookie))
    (sessionId : option string) : option (string * list Obj) :=
  match cookies with
  | Ok cookies =>
      Some ("cookies/" +:+ default "undefined" sessionId +:+ ".json",
            formattedCookies cookies)
  | Err _ => None
  end.

(** Two cookies that agree on the four strings. *)
Definition sameIdentity (c c' : Cookie) : Prop :=
  name c = name c' /\ value c = value c' /\
  domain c = domain c' /\ path c = path c'.

(** What the browser reports for a session cookie, and for one of a
    tracker that is not on the list. *)
Definition reported : list Cookie :=
  [mkCookie "lang" "v=2&lang=en-us" ".linkedin.com" "/"
            Undefined (Bool true) (Bool false) (Str "None") (Bool true)
            Undefined Undefined Undefined;
   mkCookie "JSESSIONID" "ajax:0123456789" ".www.linkedin.com" "/"
            Undefined (Bool true) (Bool false) (Str "None") (Bool false)
            Undefined Undefined Undefined;
   mkCookie "li_at" "AQEDAT" ".linkedin.com" "/"
            Undefined (Bool true) (Bool true) (Str "None") (Bool false)
            Undefined Undefined Undefined].

End Cookies.

Definition isTilesExist (c : Call) : bool :=
  match c with
  | FrameEvaluate _ TilesExist => true
  | _ => false
  end.

(** The test for tiles at each frame of a list. *)
Definition tileTests (frames : list FrameId) : list Call :=
  map (fun f => FrameEvaluate f TilesExist) frames.

(** What a request may do to the registry. *)
Definition registryChange (req : App3.Request) (s s' : Sessions) : Prop :=
  match req with
  | App3.Login _ _ _ =>
      s' = s \/
      exists id session, s !! id = None /\ s' = <[id := session]> s
  | _ => s' = s
  end.

(** A browser that starts but cannot reach the network. *)
Definition offline : oracle :=
  fun _ c =>
    match c as c0 return Resp c0 -> result (Resp c0) with
    | Goto _ _ => fun _ => Err "net::ERR_INTERNET_DISCONNECTED"
    | _ => fun d => Ok d
    end (defaultResp c).


(** ** What the page answered *)

(** The oracle, asked the calls of [t] one after the other after [h],
    gives the answers of [t]. *)
Fixpoint follows (o : oracle) (h : list Event) (t : list Event) : Prop :=
  match t with
  | [] => True
  | e :: t' => o h (ev_call e) = ev_resp e /\ follows o (h ++ [e]) t'
  end.




(** ** The completion check as the claim has it *)

(** The address an event read, if it read one. *)
Definition addressRead (e : Event) : option string :=
  match e with
  | Ev c r =>
      match c as c0 return result (Resp c0) -> option string with
      | Url _ => fun r => match r with Ok u => Some u | Err _ => None end
      | _ => fun _ => None
      end r
  end.

(** The address read last in a trace. *)
Fixpoint lastAddress (t : list Event) : option string :=
  match t with
  | [] => None
  | e :: t' =>
      match lastAddress t' with
      | Some u => Some u
      | None => addressRead e
      end
  end.

(** The check of the claim, read on the handling of one frame of a page
    that is at [preClick] when the tile is clicked: if the handler reports
    (it sends a response), the address it read last is not [preClick]. *)
Definition reportsOnlyChangeSinceClick (o : oracle) (page : PageId)
    (frame : FrameId) (tileNumber : Z) : Prop :=
  forall preClick : string,
    o [] (Url page) = Ok preClick ->
    let t := (run o [] ∅ (App3.selectTileLoop page tileNumber [frame])).2 in
    responses t <> [] ->
    lastAddress t <> Some preClick.

(** A page that a click on a tile sends to an intermediate address, and
    that is back at the address it had before the click when the wait is
    over. *)
Definition bouncingPage : oracle :=
  fun h c =>
    Ok (match c as c0 return Resp c0 -> Resp c0 with
        | Url _ =>
            fun d => if existsb isRace (calls h) then d
                     else if existsb isClickTile (calls h)
                          then "https://www.linkedin.com/checkpoint/challenge/verify"
                          else d
        | FrameEvaluate _ s =>
            match s as s0 return ScriptRes s0 -> ScriptRes s0 with
            | ClickTile _ => fun _ => true
            | _ => fun d => d
            end
        | PageEvaluate _ s =>
            match s as s0 return ScriptRes s0 -> ScriptRes s0 with
            | HeaderText => fun _ => Some "Let's do a quick security check"
            | _ => fun d => d
            end
        | _ => fun d => d
        end (defaultResp c)).

(** A page whose tiles can be clicked, that stays on the dead-end address
    and on which the wait for a navigation times out. *)
Definition stuckOnDeadEnd : oracle :=
  fun _ c =>
    match c as c0 return result (Resp c0) -> result (Resp c0) with
    | Url _ =>
        fun _ =>
          Ok "https://www.linkedin.com/checkpoint/lg/login-challenge-submit"
    | Race _ => fun _ => Err "Navigation timeout of 10000 ms exceeded"
    | FrameEvaluate _ s =>
        match s as s0 return result (ScriptRes s0) -> result (ScriptRes s0) with
        | ClickTile _ => fun _ => Ok true
        | _ => fun d => d
        end
    | _ => fun d => d
    end (Ok (defaultResp c)).



(** * Properties *)

(** ** Running composed programs *)

Lemma run_bind {A B : Type} (o : oracle) (p : prog A) (f : A -> prog B) :
  forall h s,
    run o h s (p ≫= f) =
    match run o h s p with
    | (Returned a, s', t) =>
        let '(out, s'', t') := run o (h ++ t) s' (f a) in (out, s'', t ++ t')
    | (Thrown e, s', t) => (Thrown e, s', t)
    end.
Proof.
  unfold mbind, prog_bind.
  induction p as [a|e|c k IH|k IH|s0 k IH]; intros h s; simpl.
  - rewrite app_nil_r. by destruct (run o h s (f a)) as [[? ?] ?].
  - done.
  - rewrite IH.
    destruct (run o (h ++ [Ev c (o h c)]) s (k (o h c))) as [[[a|e] s'] t];
      [|done].
    rewrite <- app_assoc. simpl.
    by destruct (run o (h ++ Ev c (o h c) :: t) s' (f a)) as [[? ?] ?].
  - apply IH.
  - apply IH.
Qed.

Lemma run_bind' {A B : Type} (o : oracle) (p : prog A) (f : A -> prog B) h s :
  run o h s (bind p f) =
  match run o h s p with
  | (Returned a, s', t) =>
      let '(out, s'', t') := run o (h ++ t) s' (f a) in (out, s'', t ++ t')
  | (Thrown e, s', t) => (Thrown e, s', t)
  end.
Proof. exact (run_bind o p f h s). Qed.

Lemma run_try_catch {A : Type} (o : oracle) (p : prog A)
    (hd : string -> prog A) :
  forall h s,
    run o h s (try_catch p hd) =
    match run o h s p with
    | (Returned a, s', t) => (Returned a, s', t)
    | (Thrown e, s', t) =>
        let '(out, s'', t') := run o (h ++ t) s' (hd e) in (out, s'', t ++ t')
    end.
Proof.
  induction p as [a|e|c k IH|k IH|s0 k IH]; intros h s; simpl.
  - done.
  - rewrite app_nil_r. by destruct (run o h s (hd e)) as [[? ?] ?].
  - rewrite IH.
    destruct (run o (h ++ [Ev c (o h c)]) s (k (o h c))) as [[[a|e] s'] t];
      [done|].
    rewrite <- app_assoc. simpl.
    by destruct (run o (h ++ Ev c (o h c) :: t) s' (hd e)) as [[? ?] ?].
  - apply IH.
  - apply IH.
Qed.

Lemma findAndClickStartPuzzleButton_unfold id children :
  findAndClickStartPuzzleButton (FrameNode id children) =
  (foundAndClicked ←
     try_catch (call (FrameEvaluate id ClickStartPuzzle)) (fun _ => Ret false);
   if foundAndClicked : bool then Ret true else searchChildFrames children).
Proof. reflexivity. Qed.

(** Induction on a frame tree with the hypothesis for every child. *)
Lemma Frame_forest_ind (P : Frame -> Prop) :
  (forall id children, Forall P children -> P (FrameNode id children)) ->
  forall f, P f.
Proof.
  intros H.
  fix IH 1. intros [id children]. apply H.
  induction children as [|c rest IHrest]; constructor; [apply IH | apply IHrest].
Qed.

Lemma preorder_unfold id children :
  preorder (FrameNode id children) = id :: preorderAll children.
Proof. reflexivity. Qed.

(** ** Frame search *)

Arguments matched : simpl never.

Lemma scan_app (o : oracle) (l1 l2 : list FrameId) :
  forall h,
    scan o h (l1 ++ l2) =
    (let '(b, t) := scan o h l1 in
     if b then (true, t)
     else let '(b', t') := scan o (h ++ t) l2 in (b', t ++ t')).
Proof.
  induction l1 as [|i l1 IH]; intros h; simpl.
  - rewrite app_nil_r. by destruct (scan o h l2).
  - set (e := Ev _ _). destruct (matched e); [done|].
    rewrite IH. destruct (scan o (h ++ [e]) l1) as [[|] t]; [done|].
    rewrite <- app_assoc. simpl. by destruct (scan o (h ++ e :: t) l2).
Qed.

Lemma run_search_step (o : oracle) id children h s :
  run o h s (findAndClickStartPuzzleButton (FrameNode id children)) =
  (let e := Ev (FrameEvaluate id ClickStartPuzzle)
               (o h (FrameEvaluate id ClickStartPuzzle)) in
   if matched e then (Returned true, s, [e])
   else let '(out, s', t) := run o (h ++ [e]) s (searchChildFrames children) in
        (out, s', e :: t)).
Proof.
  rewrite findAndClickStartPuzzleButton_unfold, run_bind, run_try_catch.
  unfold matched. simpl. by destruct (o h (FrameEvaluate id ClickStartPuzzle)) as [[|]|msg].
Qed.

Lemma run_search_scan (o : oracle) (f : Frame) :
  forall h s,
    run o h s (findAndClickStartPuzzleButton f) =
    (Returned (scan o h (preorder f)).1, s, (scan o h (preorder f)).2).
Proof.
  induction f as [id children IH] using Frame_forest_ind. intros h s.
  rewrite run_search_step, preorder_unfold. simpl.
  set (e := Ev _ _). destruct (matched e); [done|].
  assert (Hkids : forall h', run o h' s (searchChildFrames children) =
            (Returned (scan o h' (preorderAll children)).1, s,
             (scan o h' (preorderAll children)).2)).
  { clear -IH. induction IH as [|c rest Hc _ IHrest]; intros h'; [done|].
    simpl. change (bind ?p ?k) with (p ≫= k). rewrite run_bind, Hc, scan_app.
    destruct (scan o h' (preorder c)) as [[|] t]; simpl.
    - by rewrite app_nil_r.
    - rewrite IHrest. by destruct (scan o (h' ++ t) (preorderAll rest)). }
  rewrite Hkids. by destruct (scan o (h ++ [e]) (preorderAll children)).
Qed.

Lemma scan_spec (o : oracle) (ids : list FrameId) :
  forall h,
    calls (scan o h ids).2 =
      map (fun i => FrameEvaluate i ClickStartPuzzle)
          (take (length (scan o h ids).2) ids) /\
    (if (scan o h ids).1
     then exists t0 e, (scan o h ids).2 = t0 ++ [e] /\ matched e = true /\
                       Forall (fun e' => matched e' = false) t0
     else length (scan o h ids).2 = length ids /\
          Forall (fun e' => matched e' = false) (scan o h ids).2).
Proof.
  induction ids as [|i rest IH]; intros h; simpl.
  - by repeat split.
  - set (e := Ev _ _). destruct (matched e) eqn:He; simpl.
    + split; [done|]. by exists [], e.
    + destruct (IH (h ++ [e])) as [Hcalls Hrest].
      destruct (scan o (h ++ [e]) rest) as [b t]; simpl in *.
      split; [by rewrite Hcalls|].
      destruct b.
      * destruct Hrest as (t0 & e' & -> & He' & Ht0).
        exists (e :: t0), e'. repeat split; [done|]. by constructor.
      * destruct Hrest as [Hlen Hall]. split; [by rewrite Hlen|].
        by constructor.
Qed.

(** A tree of five frames in which frame 1 cannot be queried and frame 3
    has the start control: the search asks frames 0, 1, 2 and 3 in that
    order, goes on after the failure at frame 1, returns [true] and never
    asks frame 4. *)
Example frame_search_example :
  run flakyFrames [] ∅
      (findAndClickStartPuzzleButton
         (FrameNode 0 [FrameNode 1 [FrameNode 2 []]; FrameNode 3 [];
                       FrameNode 4 []])) =
    (Returned true, ∅,
     [Ev (FrameEvaluate 0 ClickStartPuzzle) (Ok false);
      Ev (FrameEvaluate 1 ClickStartPuzzle) (Err "frame detached");
      Ev (FrameEvaluate 2 ClickStartPuzzle) (Ok false);
      Ev (FrameEvaluate 3 ClickStartPuzzle) (Ok true)]).
Proof. reflexivity. Qed.

(** C2.  Whatever the frame tree and whatever the predicate answers (the
    oracle decides it at every frame, and may make the evaluation throw),
    [findAndClickStartPuzzleButton] returns (it never throws) and leaves
    the registry alone; it evaluates the predicate at the frames in the
    order of [preorder]: the root, then each child in document order with
    the child's whole subtree before the next sibling; when it finds a
    match the last evaluation it made is the first that answered [true]
    and nothing is evaluated after it; when it finds none it has
    evaluated every frame, an evaluation that threw counting as no match
    at that frame. *)
Theorem frame_search_preorder_first_match (o : oracle) (f : Frame)
    (h : list Event) (s : Sessions) :
  exists (found : bool) (t : list Event),
    run o h s (findAndClickStartPuzzleButton f) = (Returned found, s, t) /\
    calls t = map (fun i => FrameEvaluate i ClickStartPuzzle)
                  (take (length t) (preorder f)) /\
    (if found
     then exists t0 e, t = t0 ++ [e] /\ matched e = true /\
                       Forall (fun e' => matched e' = false) t0
     else length t = length (preorder f) /\
          Forall (fun e' => matched e' = false) t).
Proof.
  exists (scan o h (preorder f)).1, (scan o h (preorder f)).2.
  split; [apply run_search_scan | apply scan_spec].
Qed.

(** ** The tile handler and the dead branch *)

Arguments findAndClickStartPuzzleButton : simpl never.
Arguments handlePuzzleTiles : simpl never.
Arguments captchaRound : simpl never.

(** Symbolic execution: case analysis on the next answer of the oracle, or
    on the value the program branches on. *)
Ltac exec1 :=
  match goal with
  | o : oracle |- context [?f ?h ?c] =>
      constr_eq f o; destruct (o h c) eqn:?
  | |- context [if ?b then _ else _] => destruct b eqn:?
  | |- context [match ?x with _ => _ end] => is_var x; destruct x eqn:?
  end.

Ltac exec := repeat (unfold mbind, prog_bind; simpl; exec1);
             unfold mbind, prog_bind; simpl.

Lemma run_handlePuzzleTiles (o : oracle) frame browser sessionId h s :
  exists out t,
    run o h s (handlePuzzleTiles frame browser sessionId) = (out, s, t) /\
    (out = Returned false \/ exists e, out = Thrown e /\ thrownBy e t) /\
    Forall (fun e => isTileHandling (ev_call e) = true) t.
Proof.
  unfold handlePuzzleTiles, downloadPuzzlePiece, try_finally, thrownBy, delay.
  exec.
  all: eexists _, _; split; [reflexivity|].
  all: split; [|repeat constructor].
  all: try (left; reflexivity).
  all: right; eexists; split; [reflexivity|].
  all: repeat first [apply Exists_cons_hd; reflexivity | apply Exists_cons_tl].
Qed.

Lemma tilesLoop_cons again page browser sessionId challengeCount frame rest :
  tilesLoop again page browser sessionId challengeCount (frame :: rest) =
  (tilesHandled ← handlePuzzleTiles frame browser sessionId;
   if tilesHandled : bool then
     r ← puzzleSolved again page challengeCount;
     match r with
     | Some v => Ret v
     | None => Ret None
     end
   else tilesLoop again page browser sessionId challengeCount rest).
Proof. reflexivity. Qed.

Lemma run_tilesLoop (o : oracle) again page browser sessionId challengeCount
    (allFrames : list FrameId) :
  forall h s,
    exists out t,
      run o h s (tilesLoop again page browser sessionId challengeCount
                           allFrames) = (out, s, t) /\
      (out = Returned None \/ exists e, out = Thrown e /\ thrownBy e t) /\
      Forall (fun e => isTileHandling (ev_call e) = true) t.
Proof.
  induction allFrames as [|frame rest IH]; intros h s.
  - exists (Returned None), []. simpl. auto.
  - rewrite tilesLoop_cons, run_bind.
    destruct (run_handlePuzzleTiles o frame browser sessionId h s)
      as (out & t & -> & [->|(e & -> & He)] & Ht).
    + destruct (IH (h ++ t) s) as (out' & t' & -> & Hout & Ht').
      exists out', (t ++ t'). split; [done|]. split.
      * destruct Hout as [->|(e & -> & He)]; [by left|right].
        exists e. split; [done|]. apply Exists_app. by right.
      * by apply Forall_app.
    + exists (Thrown e), t. repeat split; [|done]. right. by exists e.
Qed.


Lemma start_puzzle_evaluations (t : list Event) :
  forall l : list FrameId,
    calls t = map (fun i => FrameEvaluate i ClickStartPuzzle) l ->
    Forall (fun e => isStartPuzzleEvaluation (ev_call e) = true) t.
Proof.
  induction t as [|e t IH]; intros l Hl; [done|].
  destruct l as [|i l]; [done|]. simpl in Hl. injection Hl as He Ht.
  constructor; [by rewrite He | exact (IH l Ht)].
Qed.

Lemma run_search_summary (o : oracle) (f : Frame) h s :
  exists found t,
    run o h s (findAndClickStartPuzzleButton f) = (Returned found, s, t) /\
    (if found : bool then Exists (fun e => matched e = true) t
     else Forall (fun e => matched e = false) t) /\
    Forall (fun e => isStartPuzzleEvaluation (ev_call e) = true) t.
Proof.
  exists (scan o h (preorder f)).1, (scan o h (preorder f)).2.
  split; [apply run_search_scan|].
  destruct (scan_spec o (preorder f) h) as [Hcalls Hfound]. split.
  - destruct (scan o h (preorder f)).1; [|by destruct Hfound].
    destruct Hfound as (t0 & e & -> & He & _).
    apply Exists_app. right. by constructor.
  - eapply start_puzzle_evaluations, Hcalls.
Qed.

Lemma searchRounds_app t1 t2 :
  searchRounds (t1 ++ t2) = searchRounds t1 + searchRounds t2.
Proof.
  unfold searchRounds, calls. by rewrite map_app, filter_app, length_app.
Qed.

Lemma searchRounds_none t :
  Forall (fun e => isMainFrame (ev_call e) = false) t -> searchRounds t = 0.
Proof.
  unfold searchRounds, calls. induction 1 as [|e t He _ IH]; [done|].
  simpl. rewrite filter_cons. destruct (decide _) as [Hd|_]; [congruence|done].
Qed.

Ltac thrown_here :=
  repeat first [apply Exists_cons_hd; reflexivity | apply Exists_cons_tl].

Lemma run_captchaRound (o : oracle) again page browser sessionId
    challengeCount h s :
  exists out t,
    run o h s (captchaRound again page browser sessionId challengeCount)
      = (out, s, t) /\
    match out with
    | Returned (Some r) => r = true /\ Forall (fun e => matched e = false) t
    | Returned None => Exists (fun e => matched e = true) t
    | Thrown e => thrownBy e t
    end /\
    Forall (fun e => inSolvedBranch (ev_call e) = false) t /\
    searchRounds t <= 1.
Proof.
  unfold captchaRound, delay, mbind, prog_bind. simpl.
  destruct (o h (Delay 5000)) as [[]|e] eqn:Hd; simpl;
    [|exists (Thrown e), [Ev (Delay 5000) (Err e)];
      repeat split; [thrown_here|repeat constructor|cbv; lia]].
  match goal with |- context [o ?h' (MainFrame page)] =>
    destruct (o h' (MainFrame page)) as [mainFrame|e] eqn:Hm; simpl end;
    [|eexists (Thrown e), _; split; [reflexivity|];
      repeat split; [thrown_here|repeat constructor|cbv; lia]].
  rewrite run_bind'.
  match goal with |- context [run o ?h' s (findAndClickStartPuzzleButton _)] =>
    destruct (run_search_summary o mainFrame h' s)
      as (found & t & -> & Hfound & Hcalls) end.
  assert (Hnb : Forall (fun e => inSolvedBranch (ev_call e) = false) t).
  { eapply Forall_impl; [exact Hcalls|]. intros [[] r]; simpl; congruence. }
  assert (Hmf : searchRounds t = 0).
  { apply searchRounds_none. eapply Forall_impl; [exact Hcalls|].
    intros [[] r]; simpl; congruence. }
  destruct found; simpl.
  2: { exists (Returned (Some true)). eexists. split; [reflexivity|].
       rewrite app_nil_r. repeat split.
       - repeat constructor; simpl; try done.
       - repeat constructor; simpl; done.
       - change (Ev (Delay 5000) (Ok tt) :: Ev (MainFrame page) (Ok mainFrame) :: t)
           with ([Ev (Delay 5000) (Ok tt); Ev (MainFrame page) (Ok mainFrame)] ++ t).
         rewrite searchRounds_app, Hmf. cbv. lia. }
  assert (Hex : forall pre post,
            Exists (fun e => matched e = true) (pre ++ t ++ post)).
  { intros pre post. apply Exists_app. right. apply Exists_app. by left. }
  assert (Hrounds : forall post,
            searchRounds post = 0 ->
            searchRounds ([Ev (Delay 5000) (Ok tt);
                           Ev (MainFrame page) (Ok mainFrame)] ++ t ++ post) <= 1).
  { intros post Hpost. rewrite !searchRounds_app, Hmf, Hpost. cbv. lia. }
  match goal with |- context [o ?h' (Delay 2000)] =>
    destruct (o h' (Delay 2000)) as [[]|e] eqn:Hd2; simpl end.
  2: { eexists (Thrown e), _. split; [reflexivity|]. repeat split.
       - apply Exists_cons_tl, Exists_cons_tl, Exists_app. right. thrown_here.
       - repeat constructor. apply Forall_app. split; [done|]. by repeat constructor.
       - apply (Hrounds [_]). done. }
  match goal with |- context [o ?h' (Frames page)] =>
    destruct (o h' (Frames page)) as [allFrames|e] eqn:Hf; simpl end.
  2: { eexists (Thrown e), _. split; [reflexivity|]. repeat split.
       - apply Exists_cons_tl, Exists_cons_tl, Exists_app. right. thrown_here.
       - repeat constructor. apply Forall_app. split; [done|]. by repeat constructor.
       - apply (Hrounds [_; _]). done. }
  match goal with |- context [run o ?h' s (tilesLoop _ _ _ _ _ _)] =>
    destruct (run_tilesLoop o again page browser sessionId challengeCount
                allFrames h' s) as (out & t' & -> & Hout & Ht') end.
  eexists out, _. split; [reflexivity|].
  assert (Hmf' : searchRounds t' = 0).
  { apply searchRounds_none. eapply Forall_impl; [exact Ht'|].
    intros [[] r]; simpl; congruence. }
  assert (Hnb' : Forall (fun e => inSolvedBranch (ev_call e) = false) t').
  { eapply Forall_impl; [exact Ht'|]. intros [[] r]; simpl; congruence. }
  repeat split.
  - destruct Hout as [->|(e & -> & He)].
    + apply (Hex [_; _]).
    + apply Exists_cons_tl, Exists_cons_tl, Exists_app. right.
      apply Exists_cons_tl, Exists_cons_tl. exact He.
  - repeat constructor. apply Forall_app. split; [done|]. by repeat constructor.
  - apply (Hrounds (_ :: _ :: t')).
    change (?a :: ?b :: t') with ([a; b] ++ t').
    by rewrite searchRounds_app, Hmf'.
Qed.

Lemma captchaFrom_unfold remaining page browser sessionId challengeCount :
  captchaFrom remaining page browser sessionId challengeCount =
  captchaRound
    (fun n => match remaining with
              | S r => captchaFrom r page browser sessionId n
              | O => Ret None
              end)
    page browser sessionId challengeCount.
Proof. by destruct remaining. Qed.

(** C4.  [handlePuzzleTiles] never returns [true]: a run ends with [false],
    or with an exception that one of its browser calls threw; on the page
    [puzzlePage], where the frame has six tiles and the first tile has a
    blob image, it fetches the image through [downloadPuzzlePiece] and
    returns [false] all the same.  So no run of [handleCaptchaChallenge]
    makes any of the calls of the [tilesHandled] branch (the wait for the
    address to change, the request for the verification code and its
    entry), and the branch starts with one of those calls, [page.url()]. *)
Theorem tiles_never_handled :
  (forall (o : oracle) frame browser sessionId h (s : Sessions),
      exists out t,
        run o h s (handlePuzzleTiles frame browser sessionId) = (out, s, t) /\
        (out = Returned false \/ exists e, out = Thrown e /\ thrownBy e t)) /\
  run puzzlePage [] ∅ (handlePuzzleTiles 0 1 "s1") =
    (Returned false, ∅,
     [Ev (FrameEvaluate 0 TilesExist) (Ok true);
      Ev (FrameEvaluate 0 FirstTileBlobUrl)
         (Ok (Some "blob:https://www.linkedin.com/tile-1"));
      Ev (NewPage 1) (Ok 1);
      Ev (CreateCDPSession 1) (Ok 1);
      Ev (ClientSend 1 "Page.enable") (Ok tt);
      Ev (ClientSend 1 "Page.setDownloadBehavior") (Ok tt);
      Ev (Goto 1 "blob:https://www.linkedin.com/tile-1") (Ok tt);
      Ev (PageEvaluate 1 (DownloadLink "s1")) (Ok tt);
      Ev (Delay 2000) (Ok tt);
      Ev (ClientDetach 1) (Ok tt);
      Ev (PageClose 1) (Ok tt)]) /\
  (forall (o : oracle) page browser sessionId challengeCount h (s : Sessions),
      exists out t,
        run o h s (handleCaptchaChallenge page browser sessionId
                                          challengeCount) = (out, s, t) /\
        Forall (fun e => inSolvedBranch (ev_call e) = false) t) /\
  (forall (o : oracle) again page challengeCount h (s : Sessions),
      exists r t,
        (run o h s (puzzleSolved again page challengeCount)).2
          = Ev (Url page) r :: t).
Proof.
  split; [|split; [|split]].
  - intros o frame br sid h s.
    destruct (run_handlePuzzleTiles o frame br sid h s)
      as (out & t & Hrun & Hout & _). by exists out, t.
  - reflexivity.
  - intros o pg br sid challengeCount h s. unfold handleCaptchaChallenge.
    rewrite captchaFrom_unfold.
    match goal with |- context [captchaRound ?again] =>
      destruct (run_captchaRound o again pg br sid challengeCount h s)
        as (out & t & Hrun & _ & Ht & _)
    end. by exists out, t.
  - intros o again pg challengeCount h s. unfold puzzleSolved, mbind, prog_bind. simpl.
    match goal with |- context [run o ?h' s ?p] =>
      destruct (run o h' s p) as [[? ?] ?] end.
    by eexists _, _.
Qed.

(** ** The puzzle-cycle rule *)



(** ** Validation before the browser is touched *)

Lemma tileInvalid_spec (tileNumber : option Z) :
  tileInvalid tileNumber = true <->
  (forall n, tileNumber = Some n -> (n < 1 \/ 6 < n)%Z).
Proof.
  destruct tileNumber as [n|]; simpl.
  - rewrite !orb_true_iff, Z.eqb_eq, !Z.ltb_lt. split.
    + intros H m [= <-]. lia.
    + intros H. destruct (H n eq_refl); auto.
  - split; [by intros _ n|done].
Qed.

(** C8.  A tile-selection request whose tile number is missing or is an
    integer outside 1..6 is answered with status 400 and a validation
    message, whatever the registry holds for the session id (nothing, or a
    session that was just created): the response is the only event of the
    run, so no call reaches the browser, and the registry is unchanged.
    The message is the one about the tile number unless the session id
    itself is missing, which is checked first. *)
Theorem invalid_tile_rejected_before_browser (o : oracle) (h : list Event)
    (s : Sessions) (sessionId : option string) (tileNumber : option Z) :
  (forall n, tileNumber = Some n -> (n < 1 \/ 6 < n)%Z) ->
  exists r,
    run o h s (App3.select_tile sessionId tileNumber) =
      (Returned tt, s,
       [Ev (Respond 400
              (jsonError (if missing sessionId then "Session ID is required"
                          else "Valid tile number (1-6) is required"))) r]) /\
    remote_calls
      (run o h s (App3.select_tile sessionId tileNumber)).2 = [].
Proof.
  intros Htile. apply tileInvalid_spec in Htile.
  unfold App3.select_tile. rewrite Htile.
  destruct (missing sessionId); simpl.
  - by eexists.
  - by eexists.
Qed.

Lemma invalid_tile_rejected_witness :
  (forall n, Some 7%Z = Some n -> (n < 1 \/ 6 < n)%Z) /\
  exists r,
    run quiet [] {[ "s1" := mkSession 1 1 ]}
        (App3.select_tile (Some "s1") (Some 7%Z)) =
      (Returned tt, {[ "s1" := mkSession 1 1 ]},
       [Ev (Respond 400 (jsonError "Valid tile number (1-6) is required")) r])
    /\ remote_calls
         (run quiet [] {[ "s1" := mkSession 1 1 ]}
              (App3.select_tile (Some "s1") (Some 7%Z))).2 = [].
Proof.
  assert (H7 : forall n, Some 7%Z = Some n -> (n < 1 \/ 6 < n)%Z)
    by (intros n [= <-]; lia).
  split; [exact H7|].
  exact (invalid_tile_rejected_before_browser quiet []
           {[ "s1" := mkSession 1 1 ]} (Some "s1") (Some 7%Z) H7).
Defined.

(** ** A session id that is not in the registry *)

(** C9, the claim as stated fails.  For the same unknown session id the
    status poll answers 200 with the text 0, tile selection answers 400
    with a JSON error object, and the fetch of the challenge controls
    answers 400 with a plain text: three different outcomes. *)
Lemma session_not_found_counterexample :
  responses (run quiet [] ∅ (App3.handle (App3.CheckLoginStatus (Some "ghost")))).2
    = [(200, Send (JStr "0"))] /\
  responses (run quiet [] ∅
               (App3.handle (App3.SelectTile (Some "ghost") (Some 3%Z)))).2
    = [(400, SendJson (JObj [("error", JStr "Session not found")]))] /\
  responses (run quiet [] ∅
               (App3.handle (App3.SecurityVerification (Some "ghost")))).2
    = [(400, Send (JStr "Session not found"))] /\
  responses (run quiet [] ∅ (App3.handle (App3.CheckLoginStatus (Some "ghost")))).2
    <> responses (run quiet [] ∅
                    (App3.handle (App3.SelectTile (Some "ghost") (Some 3%Z)))).2.
Proof. repeat split; vm_compute; congruence. Qed.

(** C9, amended.  A request of a route that acts on a session, with a
    non-empty session id that is not in the registry and is not the name
    of a member every object inherits ([inheritedNames]; for those the
    lookup finds the member), and with its other fields valid, is
    answered by [notFoundReply]: status 400 and the JSON
    object with the error Session not found for tile selection, the two
    code routes and the two phone routes; status 400 and the plain text
    Session not found for the fetch of the challenge controls; status 200
    and the text 0 for the status poll.  The response is the only event of
    the run (the browser is not touched) and the registry is unchanged. *)
Theorem unknown_session_replies (o : oracle) (h : list Event) (s : Sessions)
    (req : App3.Request) (sessionId : string) :
  isStageOperation req = true ->
  sessionIdOf req = Some sessionId ->
  sessionId <> "" ->
  isInherited sessionId = false ->
  otherFieldsValid req = true ->
  s !! sessionId = None ->
  exists r,
    run o h s (App3.handle req) =
      (Returned tt, s,
       [Ev (Respond (notFoundReply req).1 (notFoundReply req).2) r]).
Proof.
  intros Hop Hid Hne _ Hvalid Hnone.
  assert (Ht : truthy (Some sessionId) = true).
  { unfold truthy. by destruct (String.eqb_spec sessionId ""). }
  destruct req; try discriminate Hop; simpl in Hid, Hvalid; subst;
    try apply negb_true_iff in Hvalid;
    try apply andb_true_iff in Hvalid as [Hp Hc];
    unfold App3.handle, App3.security_verification, App3.select_tile,
      App3.verify_code, App3.verify_sms, App3.verify_phone,
      App3.update_phone, App3.check_login_status, missing;
    rewrite Ht, ?Hvalid, ?Hp, ?Hc; simpl; rewrite Hnone; simpl;
    by eexists.
Qed.

Lemma unknown_session_replies_witness :
  isStageOperation (App3.VerifyCode (Some "123456") (Some "ghost")) = true /\
  isInherited "ghost" = false /\
  (∅ : Sessions) !! "ghost" = None /\
  exists r,
    run quiet [] ∅ (App3.handle (App3.VerifyCode (Some "123456") (Some "ghost")))
      = (Returned tt, ∅, [Ev (Respond 400 (jsonError "Session not found")) r]).
Proof.
  split; [reflexivity|]. split; [reflexivity|]. split; [reflexivity|].
  apply (unknown_session_replies quiet [] ∅
           (App3.VerifyCode (Some "123456") (Some "ghost")) "ghost");
    [reflexivity|reflexivity|discriminate|reflexivity|reflexivity
    |reflexivity].
Defined.

(** ** Phone numbers that are too short *)

(** C1, the claim as stated fails.  The server takes the three-character
    phone number 123 for a live session, drives the page through the whole
    phone form (ten calls on the page) and answers with success. *)
Lemma short_phone_counterexample :
  String.length "123" < 10 /\
  length (remote_calls
            (run quiet [] {[ "s1" := mkSession 1 1 ]}
                 (App3.verify_phone (Some "123") (Some "us") (Some "s1"))).2)
    = 10 /\
  responses (run quiet [] {[ "s1" := mkSession 1 1 ]}
                 (App3.verify_phone (Some "123") (Some "us") (Some "s1"))).2
    = [(200, Send (JStr "1"))].
Proof. split; [simpl; lia|]. split; vm_compute; reflexivity. Qed.

(** C1, amended.  The length check is in the phone form of the front end:
    [handleSubmit] trims the value of the phone field and, when fewer than
    ten characters are left, shows a validation message and sends nothing
    (no [fetch], so neither the server nor the browser session is
    reached).  The server routes [verify-phone] and [update-phone] check
    only that the phone is present: a missing or empty phone is answered
    with status 400 before the browser is touched. *)
Theorem short_phone_rejected_by_form :
  (forall (o : oracle) h (s : Sessions) phoneValue countryValue sessionId,
      String.length (FrontEnd.trim phoneValue) < 10 ->
      exists out t,
        run o h s (FrontEnd.handleSubmit phoneValue countryValue sessionId)
          = (out, s, t) /\
        remote_calls t = [] /\
        (calls t = [HideError] \/
         calls t =
           [HideError;
            ShowError (if String.eqb (FrontEnd.trim phoneValue) ""
                       then "Please enter a phone number"
                       else "Please enter a valid phone number")])) /\
  (forall (o : oracle) h (s : Sessions) phone countryCode sessionId,
      missing phone = true ->
      exists r,
        run o h s (App3.verify_phone phone countryCode sessionId) =
          (Returned tt, s,
           [Ev (Respond 400
                  (jsonError (if missing sessionId
                              then "Session ID is required"
                              else "Phone number is required"))) r])) /\
  (forall (o : oracle) h (s : Sessions) phone countryCode sessionId,
      missing phone = true ->
      exists r,
        run o h s (App3.update_phone phone countryCode sessionId) =
          (Returned tt, s,
           [Ev (Respond 400
                  (jsonError (if missing sessionId
                              then "Session ID is required"
                              else "Phone number is required"))) r])).
Proof.
  split; [|split].
  - intros o h s phoneValue countryValue sessionId Hshort.
    unfold FrontEnd.handleSubmit, mbind, prog_bind. simpl.
    destruct (o h HideError) as [[]|e]; simpl.
    + destruct (String.eqb (FrontEnd.trim phoneValue) ""); simpl.
      * destruct (o _ (ShowError _)); eexists _, _; repeat split; by right.
      * apply Nat.ltb_lt in Hshort. rewrite Hshort. simpl.
        destruct (o _ (ShowError _)); eexists _, _; repeat split; by right.
    + eexists _, _; repeat split; by left.
  - intros o h s phone countryCode sessionId Hphone.
    unfold App3.verify_phone. rewrite Hphone.
    destruct (missing sessionId); simpl; by eexists.
  - intros o h s phone countryCode sessionId Hphone.
    unfold App3.update_phone. rewrite Hphone.
    destruct (missing sessionId); simpl; by eexists.
Qed.

Lemma short_phone_rejected_witness :
  String.length (FrontEnd.trim "  555 0100 ") < 10 /\
  exists out t,
    run quiet [] ∅ (FrontEnd.handleSubmit "  555 0100 " "us" (Some "s1"))
      = (out, ∅, t) /\
    remote_calls t = [] /\
    (calls t = [HideError] \/
     calls t = [HideError; ShowError "Please enter a valid phone number"]).
Proof.
  assert (Hshort : String.length (FrontEnd.trim "  555 0100 ") < 10)
    by (vm_compute; lia).
  split; [exact Hshort|].
  exact (proj1 short_phone_rejected_by_form quiet [] ∅ "  555 0100 " "us"
           (Some "s1") Hshort).
Defined.

(** ** Submitting the one-time code *)

Arguments App3.submitPin : simpl never.






(** ** The registry *)

Lemma run_try_catch_bind {A B : Type} (o : oracle) (p : prog A)
    (f : A -> prog B) (hd : string -> prog B) :
  forall h s,
    run o h s (try_catch (bind p f) hd) =
    match run o h s p with
    | (Returned a, s', t) =>
        let '(out, s'', t') := run o (h ++ t) s' (try_catch (f a) hd) in
        (out, s'', t ++ t')
    | (Thrown e, s', t) =>
        let '(out, s'', t') := run o (h ++ t) s' (hd e) in (out, s'', t ++ t')
    end.
Proof.
  induction p as [a|e|c k IH|k IH|s0 k IH]; intros h s; simpl.
  - rewrite app_nil_r. by destruct (run o h s (try_catch (f a) hd)) as [[? ?] ?].
  - rewrite app_nil_r. by destruct (run o h s (hd e)) as [[? ?] ?].
  - rewrite IH.
    destruct (run o (h ++ [Ev c (o h c)]) s (k (o h c))) as [[[a|e] s'] t];
      rewrite <- app_assoc; simpl.
    + by destruct (run o _ s' (try_catch (f a) hd)) as [[? ?] ?].
    + by destruct (run o _ s' (hd e)) as [[? ?] ?].
  - apply IH.
  - apply IH.
Qed.

Lemma run_try_catch_around_send {A B : Type} (o : oracle) (p : prog A)
    (q : A -> prog B) (hd : bool -> string -> prog B) :
  forall h s,
    run o h s (try_catch_around_send p q hd) =
    match run o h s p with
    | (Returned a, s', t) =>
        let '(out, s'', t') := run o (h ++ t) s' (try_catch (q a) (hd true)) in
        (out, s'', t ++ t')
    | (Thrown e, s', t) =>
        let '(out, s'', t') := run o (h ++ t) s' (hd false e) in
        (out, s'', t ++ t')
    end.
Proof.
  intros h s. unfold try_catch_around_send.
  rewrite run_bind, run_try_catch, run_bind.
  destruct (run o h s p) as [[[a|e] s'] t]; cbn; by rewrite app_nil_r.
Qed.

Arguments try_catch_around_send : simpl never.

Section EndsIn.
Context {R : Type} (P : Sessions -> Prop) (s : Sessions).

Lemma ends_in_ret (r : R) : P s -> ends_in P s (Ret r).
Proof. by intros H o h. Qed.

Lemma ends_in_throw (e : string) : P s -> ends_in P s (@Throw R e).
Proof. by intros H o h. Qed.

Lemma ends_in_vis (c : Call) (k : result (Resp c) -> prog R) :
  (forall r, ends_in P s (k r)) -> ends_in P s (Vis c k).
Proof.
  intros H o h. simpl. specialize (H (o h c) o (h ++ [Ev c (o h c)])).
  by destruct (run o _ s (k (o h c))) as [[? ?] ?].
Qed.

Lemma ends_in_get (k : Sessions -> prog R) :
  ends_in P s (k s) -> ends_in P s (GetSessions k).
Proof. intros H o h. apply H. Qed.

Lemma ends_in_put (s' : Sessions) (k : prog R) :
  ends_in P s' k -> ends_in P s (PutSessions s' k).
Proof. intros H o h. apply H. Qed.

Lemma ends_in_bind {A : Type} (p : prog A) (f : A -> prog R) :
  keeps p -> P s -> (forall a, ends_in P s (f a)) -> ends_in P s (bind p f).
Proof.
  intros Hp Hs Hf o h. rewrite run_bind'. specialize (Hp s o h).
  destruct (run o h s p) as [[[a|e] s'] t]; simpl in *; subst; [|done].
  specialize (Hf a o (h ++ t)).
  by destruct (run o (h ++ t) s (f a)) as [[? ?] ?].
Qed.

Lemma ends_in_try_catch_bind {A : Type} (p : prog A) (f : A -> prog R)
    (hd : string -> prog R) :
  keeps p ->
  (forall a, ends_in P s (try_catch (f a) hd)) ->
  (forall e, ends_in P s (hd e)) ->
  ends_in P s (try_catch (bind p f) hd).
Proof.
  intros Hp Hf Hhd o h. rewrite run_try_catch_bind.
  specialize (Hp s o h).
  destruct (run o h s p) as [[[a|e] s'] t]; simpl in *; subst.
  - specialize (Hf a o (h ++ t)).
    by destruct (run o (h ++ t) s (try_catch (f a) hd)) as [[? ?] ?].
  - specialize (Hhd e o (h ++ t)).
    by destruct (run o (h ++ t) s (hd e)) as [[? ?] ?].
Qed.

Lemma ends_in_around_send {A : Type} (p : prog A) (q : A -> prog R)
    (hd : bool -> string -> prog R) :
  ends_in (fun s1 => (forall a, ends_in P s1 (try_catch (q a) (hd true))) /\
                     (forall e, ends_in P s1 (hd false e))) s p ->
  ends_in P s (try_catch_around_send p q hd).
Proof.
  intros Hp o h. rewrite run_try_catch_around_send. specialize (Hp o h).
  destruct (run o h s p) as [[[a|e] s'] t]; cbn [fst snd] in Hp;
    destruct Hp as [Hq Hhd].
  - specialize (Hq a o (h ++ t)).
    by destruct (run o (h ++ t) s' (try_catch (q a) (hd true))) as [[? ?] ?].
  - specialize (Hhd e o (h ++ t)).
    by destruct (run o (h ++ t) s' (hd false e)) as [[? ?] ?].
Qed.
End EndsIn.

Create HintDb keeps.

Arguments handleCaptchaChallenge : simpl never.
Arguments App3.tilesHtmlLoop : simpl never.
Arguments App3.afterTileClick : simpl never.
Arguments App3.selectTileLoop : simpl never.
Arguments App3.submitPhone : simpl never.
Arguments enterCredentials : simpl never.

Lemma keeps_search (f : Frame) : keeps (findAndClickStartPuzzleButton f).
Proof. intros s o h. by rewrite run_search_scan. Qed.

Lemma keeps_handleCaptchaChallenge page browser sessionId challengeCount :
  keeps (handleCaptchaChallenge page browser sessionId challengeCount).
Proof.
  intros s o h. unfold handleCaptchaChallenge. rewrite captchaFrom_unfold.
  match goal with |- context [captchaRound ?again] =>
    destruct (run_captchaRound o again page browser sessionId challengeCount
                h s) as (out & t & -> & _) end.
  done.
Qed.

Lemma keeps_ret {R : Type} (r : R) : keeps (Ret r).
Proof. by intros s o h. Qed.

Lemma keeps_bind {A B : Type} (p : prog A) (f : A -> prog B) :
  keeps p -> (forall a, keeps (f a)) -> keeps (bind p f).
Proof.
  intros Hp Hf s. apply ends_in_bind; [done|done|]. intros a. apply Hf.
Qed.

#[local] Hint Resolve keeps_search keeps_handleCaptchaChallenge keeps_ret
  keeps_bind : keeps.

(** One step of a proof that a program ends in [P]. *)
Ltac ends_in_step :=
  cbn;
  match goal with
  | |- keeps _ => intros ?s
  | |- (forall _, ends_in _ _ _) /\ (forall _, ends_in _ _ _) =>
      split; intros ?
  | |- ends_in _ _ (Ret _) => apply ends_in_ret
  | |- ends_in _ _ (Throw _) => apply ends_in_throw
  | |- ends_in _ _ (Vis _ _) => apply ends_in_vis; intros [?|?]
  | |- ends_in _ _ (GetSessions _) => apply ends_in_get
  | |- ends_in _ _ (PutSessions _ _) => apply ends_in_put
  | |- ends_in _ _ (call _) => unfold call
  | |- ends_in _ _ (respond _ _) => unfold respond
  | |- ends_in _ _ (respondOnce _ _ _) => unfold respondOnce, respond
  | |- ends_in _ _ (try_catch_around_send _ _ _) => apply ends_in_around_send
  | |- ends_in _ _ (delay _) => unfold delay, call
  | |- ends_in _ _ (getSession _) => unfold getSession
  | |- ends_in _ _ (setSession _ _) => unfold setSession
  | |- ends_in _ _ (if ?b then _ else _) => destruct b eqn:?
  | |- ends_in _ _ (match ?x with _ => _ end) => destruct x eqn:?
  | |- ends_in _ _ (bind (if ?b then _ else _) _) => destruct b eqn:?
  | |- ends_in _ _ (try_catch (if ?b then _ else _) _) => destruct b eqn:?
  | |- ends_in _ _ (try_catch (match ?x with _ => _ end) _) => destruct x eqn:?
  | |- ends_in _ _ (try_catch (bind (if ?b then _ else _) _) _) =>
      destruct b eqn:?
  | |- ends_in _ _ (bind _ _) =>
      apply ends_in_bind; [solve [eauto with keeps] | | intros ?]
  | |- ends_in _ _ (try_catch (bind _ _) _) =>
      apply ends_in_try_catch_bind; [solve [eauto with keeps] | intros ? | intros ?]
  end.

Ltac ends_in := repeat ends_in_step.

Lemma keeps_tilesHtmlLoop frames : keeps (App3.tilesHtmlLoop frames).
Proof.
  induction frames as [|frame rest IH]; intros s.
  - by ends_in.
  - change (App3.tilesHtmlLoop (frame :: rest)) with
      (tilesHtml ← call (FrameEvaluate frame TilesHtml);
       match tilesHtml with
       | Some tiles =>
           respond 200 (SendJson (JObj [("status", JStr "success");
                                        ("tiles", JArr (map JStr tiles))]));;
           Ret true
       | None => App3.tilesHtmlLoop rest
       end).
    unfold mbind, prog_bind, respond. ends_in; try done; apply IH.
Qed.

Lemma keeps_afterTileClick page : keeps (App3.afterTileClick page).
Proof.
  unfold App3.afterTileClick, mbind, prog_bind, respond, delay.
  ends_in; done.
Qed.

#[local] Hint Resolve keeps_tilesHtmlLoop keeps_afterTileClick : keeps.

Lemma keeps_selectTileLoop page tileNumber frames :
  keeps (App3.selectTileLoop page tileNumber frames).
Proof.
  induction frames as [|frame rest IH]; intros s.
  - by ends_in.
  - change (App3.selectTileLoop page tileNumber (frame :: rest)) with
      (clicked ← call (FrameEvaluate frame (ClickTile tileNumber));
       sent ← (if clicked : bool then App3.afterTileClick page else Ret false);
       if sent : bool then Ret true
       else App3.selectTileLoop page tileNumber rest).
    unfold mbind, prog_bind. ends_in; try done; apply IH.
Qed.

Lemma keeps_submitPin page code : keeps (App3.submitPin page code).
Proof.
  unfold App3.submitPin, mbind, prog_bind, delay. ends_in; done.
Qed.

Lemma keeps_submitPhone page phone countryCode :
  keeps (App3.submitPhone page phone countryCode).
Proof.
  unfold App3.submitPhone, mbind, prog_bind, delay. ends_in; done.
Qed.

Lemma keeps_enterCredentials email password :
  keeps (enterCredentials email password).
Proof.
  unfold enterCredentials, mbind, prog_bind. ends_in; done.
Qed.

#[local] Hint Resolve keeps_selectTileLoop keeps_submitPin keeps_submitPhone
  keeps_enterCredentials : keeps.

(** C7.  A request to create a session under an id that is already in the
    registry is answered with status 400 and Session already exists; the
    response is the only event of the run, so no browser is launched, and
    the registry is unchanged.  And no request of any route of [app3.js],
    nor the login route of [app2.js], removes or replaces an entry: every
    binding of the registry before the request is a binding of the
    registry after it, so a session id never comes to stand for a second
    session while the first is there. *)
Theorem duplicate_session_rejected :
  (forall (o : oracle) h (s : Sessions) sessionId email password existing,
      truthy email = true ->
      sessionId <> "" ->
      s !! sessionId = Some existing ->
      exists r,
        run o h s (App3.login (Some sessionId) email password) =
          (Returned tt, s,
           [Ev (Respond 400 (Send (JStr "Session already exists"))) r])) /\
  (forall (o : oracle) h (s : Sessions) (req : App3.Request),
      s ⊆ (run o h s (App3.handle req)).1.2) /\
  (forall (o : oracle) h (s : Sessions) sessionId email password,
      s ⊆ (run o h s (App2.login sessionId email password)).1.2).
Proof.
  split; [|split].
  - intros o h s sessionId email password existing He Hid Hs.
    assert (Hi : truthy (Some sessionId) = true).
    { unfold truthy. by destruct (String.eqb_spec sessionId ""). }
    unfold App3.login, missing. rewrite He, Hi. simpl. rewrite Hs. simpl.
    by eexists.
  - intros o h s req. revert o h.
    change (ends_in (fun s' => s ⊆ s') s (App3.handle req)).
    destruct req; unfold App3.handle, App3.check_puzzle_image, App3.login,
      App3.security_verification, App3.select_tile, App3.verify_code,
      App3.verify_sms, App3.verify_phone, App3.update_phone,
      App3.check_login_status, mbind, prog_bind.
    all: ends_in; try done.
    all: try (apply insert_subseteq; assumption).
  - intros o h s sessionId email password. revert o h.
    change (ends_in (fun s' => s ⊆ s') s
              (App2.login sessionId email password)).
    unfold App2.login, mbind, prog_bind.
    ends_in; try done.
    all: try (apply insert_subseteq; assumption).
Qed.

Lemma duplicate_session_witness :
  truthy (Some "user@example.com") = true /\
  ({[ "s1" := mkSession 1 1 ]} : Sessions) !! "s1" = Some (mkSession 1 1) /\
  exists r,
    run quiet [] {[ "s1" := mkSession 1 1 ]}
        (App3.login (Some "s1") (Some "user@example.com") (Some "secret")) =
      (Returned tt, {[ "s1" := mkSession 1 1 ]},
       [Ev (Respond 400 (Send (JStr "Session already exists"))) r]).
Proof.
  split; [reflexivity|]. split; [reflexivity|].
  apply (proj1 duplicate_session_rejected quiet [] {[ "s1" := mkSession 1 1 ]}
           "s1" (Some "user@example.com") (Some "secret") (mkSession 1 1));
    [reflexivity|discriminate|reflexivity].
Defined.

(** ** The completion check after a tile click *)

(** The check when the race resolves. *)
Lemma run_afterTileClick_resolved (o : oracle) (h : list Event)
    (s : Sessions) (page : PageId) (u0 u1 : string) (winner : nat) :
  let e1 := Ev (Url page) (Ok u0) in
  let e2 := Ev tileRace (Ok winner) in
  let e3 := Ev (Delay 2000) (Ok tt) in
  let e4 := Ev (Url page) (Ok u1) in
  o h (Url page) = Ok u0 ->
  o (h ++ [e1]) tileRace = Ok winner ->
  o (h ++ [e1; e2]) (Delay 2000) = Ok tt ->
  o (h ++ [e1; e2; e3]) (Url page) = Ok u1 ->
  exists out rest,
    run o h s (App3.afterTileClick page)
      = (out, s, e1 :: e2 :: e3 :: e4 :: rest) /\
    (exists a b c, tileRace = Race [a; b; c] /\
                   budget a = budget b /\ budget b = budget c) /\
    (u1 = u0 -> out = Returned false /\ rest = []) /\
    (u1 <> u0 ->
     exists r rest',
       rest = Ev (if includes u1 deadEndSegment
                  then Respond 200 (Send (JStr "lastcve"))
                  else PageEvaluate page HeaderText) r :: rest').
Proof.
  intros e1 e2 e3 e4 H1 H2 H3 H4. subst e1 e2 e3 e4.
  unfold App3.afterTileClick, delay, mbind, prog_bind, tileRace in *. simpl.
  rewrite H1. simpl.
  match goal with |- context [o ?h' (Race ?l)] =>
    replace (o h' (Race l)) with (@Ok nat winner) by (symmetry; exact H2) end.
  simpl.
  match goal with |- context [o ?h' (Delay 2000)] =>
    replace (o h' (Delay 2000)) with (@Ok unit tt)
      by (symmetry; rewrite <- app_assoc; exact H3) end.
  simpl.
  match goal with |- context [o ?h' (Url page)] =>
    replace (o h' (Url page)) with (@Ok string u1)
      by (symmetry; rewrite <- ?app_assoc; exact H4) end.
  simpl.
  destruct (String.eqb_spec u1 u0) as [Heq|Hne]; simpl.
  - eexists _, _. split; [reflexivity|]. split; [by eexists _, _, _|].
    split; [done|]. intros Hne. by destruct Hne.
  - destruct (includes u1 deadEndSegment) eqn:Hseg; simpl.
    + eexists _, _. split; [reflexivity|]. split; [by eexists _, _, _|].
      split; [done|]. intros _. by eexists _, _.
    + exec; (eexists _, _; split; [reflexivity|];
             split; [by eexists _, _, _|]; split; [done|];
             intros _; by eexists _, _).
Qed.


(** The check when the race rejects. *)
Lemma run_afterTileClick_rejected (o : oracle) (h : list Event)
    (s : Sessions) (page : PageId) (u0 msg ulog u2 : string) :
  let e1 := Ev (Url page) (Ok u0) in
  let e2 := Ev tileRace (Err msg) in
  let e3 := Ev (Url page) (Ok ulog) in
  let e4 := Ev (Url page) (Ok u2) in
  o h (Url page) = Ok u0 ->
  o (h ++ [e1]) tileRace = Err msg ->
  o (h ++ [e1; e2]) (Url page) = Ok ulog ->
  o (h ++ [e1; e2; e3]) (Url page) = Ok u2 ->
  exists r,
    run o h s (App3.afterTileClick page) =
      (Returned (includes u2 deadEndSegment), s,
       e1 :: e2 :: e3 :: e4 ::
         (if includes u2 deadEndSegment
          then [Ev (Respond 200 (Send (JStr "lastcve"))) r]
          else [])).
Proof.
  intros e1 e2 e3 e4 H1 H2 H3 H4. subst e1 e2 e3 e4.
  unfold App3.afterTileClick, delay, mbind, prog_bind, tileRace in *. cbn.
  rewrite H1. cbn.
  match goal with |- context [o ?h' (Race ?l)] =>
    replace (o h' (Race l)) with (@Err nat msg) by (symmetry; exact H2) end.
  cbn.
  match goal with |- context [o ?h' (Url page)] =>
    replace (o h' (Url page)) with (@Ok string ulog)
      by (symmetry; rewrite <- ?app_assoc; exact H3) end.
  cbn.
  match goal with |- context [o ?h' (Url page)] =>
    replace (o h' (Url page)) with (@Ok string u2)
      by (symmetry; rewrite <- ?app_assoc; exact H4) end.
  cbn. destruct (includes u2 deadEndSegment); cbn.
  - eexists. reflexivity.
  - exists (Ok tt). reflexivity.
Qed.

Lemma selectTileLoop_cons page tileNumber frame rest :
  App3.selectTileLoop page tileNumber (frame :: rest) =
  (clicked ← call (FrameEvaluate frame (ClickTile tileNumber));
   sent ← (if clicked : bool then App3.afterTileClick page else Ret false);
   if sent : bool then Ret true
   else App3.selectTileLoop page tileNumber rest).
Proof. reflexivity. Qed.

(** The handling of a frame in which the click landed, in terms of the
    check that follows the click. *)
Lemma run_selectTileLoop_clicked (o : oracle) (h : list Event) (s : Sessions)
    (page : PageId) (tileNumber : Z) (frame : FrameId)
    (rest : list FrameId) (sent : outcome bool) (t : list Event) :
  let e0 := Ev (FrameEvaluate frame (ClickTile tileNumber)) (Ok true) in
  o h (FrameEvaluate frame (ClickTile tileNumber)) = Ok true ->
  run o (h ++ [e0]) s (App3.afterTileClick page) = (sent, s, t) ->
  run o h s (App3.selectTileLoop page tileNumber (frame :: rest)) =
    match sent with
    | Returned true => (Returned true, s, e0 :: t)
    | Returned false =>
        let '(out, s', t') :=
          run o (h ++ e0 :: t) s (App3.selectTileLoop page tileNumber rest) in
        (out, s', e0 :: t ++ t')
    | Thrown e => (Thrown e, s, e0 :: t)
    end.
Proof.
  intros e0 Hclick Hcheck. subst e0.
  rewrite selectTileLoop_cons. unfold mbind, prog_bind, call. cbn.
  rewrite Hclick. cbn. rewrite run_bind', Hcheck.
  destruct sent as [[|]|e]; cbn; rewrite <- ?app_assoc; cbn.
  - by rewrite app_nil_r.
  - by destruct (run o _ s (App3.selectTileLoop page tileNumber rest))
      as [[? ?] ?].
  - done.
Qed.

(** C5, the claim as stated fails.  On [bouncingPage] the page is at the
    challenge address when the tile is clicked, at an intermediate
    address when the click has returned and the handler reads its
    baseline, and back at the challenge address when the race is over.
    The handler reports (it sends the header text) although the address
    it has just read is the one the page had before the click. *)
Lemma completion_check_counterexample :
  ~ reportsOnlyChangeSinceClick bouncingPage 1 1 3.
Proof.
  intros Hclaim.
  apply (Hclaim "https://www.linkedin.com/checkpoint/challenge");
    [reflexivity|discriminate|reflexivity].
Qed.

(** C5, amended.  The baseline is not the address before the click: the
    handler reads it when the click has returned ([u0], read after the
    event of the click), and then waits for the first of three promises
    started together: navigation, network idle and a plain timer, each
    with the same budget of 10000 ms.  When that race resolves, the
    handler pauses 2000 ms and reads the address again ([u1]); it reports
    only if the two differ: with [u1 = u0] nothing is sent for this frame
    and the loop goes on with the frames that are left; with [u1 <> u0]
    it goes on to report, with lastcve if the new address has the
    dead-end segment and with the header text otherwise.  When the race
    rejects, nothing is compared: the handler reads the address twice
    more and reports lastcve if the last reading has the dead-end
    segment; if not, the loop goes on. *)
Theorem completion_check_races_then_compares :
  (forall (o : oracle) (h : list Event) (s : Sessions) (page : PageId)
          (tileNumber : Z) (frame : FrameId) (rest : list FrameId)
          (u0 u1 : string) (winner : nat),
      let e0 := Ev (FrameEvaluate frame (ClickTile tileNumber)) (Ok true) in
      let e1 := Ev (Url page) (Ok u0) in
      let e2 := Ev tileRace (Ok winner) in
      let e3 := Ev (Delay 2000) (Ok tt) in
      let e4 := Ev (Url page) (Ok u1) in
      follows o h [e0; e1; e2; e3; e4] ->
      exists out tl,
        run o h s (App3.selectTileLoop page tileNumber (frame :: rest))
          = (out, s, e0 :: e1 :: e2 :: e3 :: e4 :: tl) /\
        (exists a b c, tileRace = Race [a; b; c] /\
                       budget a = budget b /\ budget b = budget c) /\
        (u1 = u0 ->
         (out, s, tl) = run o (h ++ [e0; e1; e2; e3; e4]) s
                            (App3.selectTileLoop page tileNumber rest)) /\
        (u1 <> u0 ->
         exists r tl',
           tl = Ev (if includes u1 deadEndSegment
                    then Respond 200 (Send (JStr "lastcve"))
                    else PageEvaluate page HeaderText) r :: tl')) /\
  (forall (o : oracle) (h : list Event) (s : Sessions) (page : PageId)
          (tileNumber : Z) (frame : FrameId) (rest : list FrameId)
          (u0 msg ulog u2 : string),
      let e0 := Ev (FrameEvaluate frame (ClickTile tileNumber)) (Ok true) in
      let e1 := Ev (Url page) (Ok u0) in
      let e2 := Ev tileRace (Err msg) in
      let e3 := Ev (Url page) (Ok ulog) in
      let e4 := Ev (Url page) (Ok u2) in
      follows o h [e0; e1; e2; e3; e4] ->
      exists out tl,
        run o h s (App3.selectTileLoop page tileNumber (frame :: rest))
          = (out, s, e0 :: e1 :: e2 :: e3 :: e4 :: tl) /\
        if includes u2 deadEndSegment
        then out = Returned true /\
             exists r, tl = [Ev (Respond 200 (Send (JStr "lastcve"))) r]
        else (out, s, tl) = run o (h ++ [e0; e1; e2; e3; e4]) s
                                (App3.selectTileLoop page tileNumber rest)).
Proof.
  split.
  - intros o h s pg n frame rest u0 u1 winner e0 e1 e2 e3 e4
           (H0 & H1 & H2 & H3 & H4 & _).
    subst e0 e1 e2 e3 e4. cbn in H0, H1, H2, H3, H4.
    set (hc := h ++ [Ev (FrameEvaluate frame (ClickTile n)) (Ok true)]) in *.
    rewrite <- app_assoc in H3. do 2 rewrite <- app_assoc in H4.
    cbn in H3, H4.
    destruct (run_afterTileClick_resolved o hc s pg u0 u1 winner H1 H2 H3 H4)
      as (sent & tl0 & Hcheck & Hbudget & Hsame & Hchanged).
    subst hc.
    rewrite (run_selectTileLoop_clicked o h s pg n frame rest sent _ H0 Hcheck).
    pose proof (keeps_selectTileLoop pg n rest s o) as Hkeeps.
    destruct (String.eqb_spec u1 u0) as [Heq|Hne].
    + destruct (Hsame Heq) as [-> ->].
      match goal with |- context [run o ?h' s (App3.selectTileLoop pg n rest)] =>
        specialize (Hkeeps h');
        destruct (run o h' s (App3.selectTileLoop pg n rest))
          as [[out s'] t'] eqn:Hrest end.
      cbn in Hkeeps. subst s'.
      exists out, t'. split; [reflexivity|]. split; [exact Hbudget|].
      split; [|by intros Hne]. intros _.
      rewrite <- Hrest. f_equal; by rewrite <- ?app_assoc, ?app_nil_r.
    + destruct (Hchanged Hne) as (r & tl' & ->).
      destruct sent as [[|]|e].
      * eexists _, _. split; [reflexivity|]. split; [exact Hbudget|].
        split; [by intros Heq|]. intros _. by eexists _, _.
      * match goal with |- context [run o ?h' s (App3.selectTileLoop pg n rest)] =>
          specialize (Hkeeps h');
          destruct (run o h' s (App3.selectTileLoop pg n rest))
            as [[out s'] t'] end.
        cbn in Hkeeps. subst s'.
        eexists _, _. split; [reflexivity|]. split; [exact Hbudget|].
        split; [by intros Heq|]. intros _. by eexists _, _.
      * eexists _, _. split; [reflexivity|]. split; [exact Hbudget|].
        split; [by intros Heq|]. intros _. by eexists _, _.
  - intros o h s pg n frame rest u0 msg ulog u2 e0 e1 e2 e3 e4
           (H0 & H1 & H2 & H3 & H4 & _).
    subst e0 e1 e2 e3 e4. cbn in H0, H1, H2, H3, H4.
    set (hc := h ++ [Ev (FrameEvaluate frame (ClickTile n)) (Ok true)]) in *.
    rewrite <- app_assoc in H3. do 2 rewrite <- app_assoc in H4.
    cbn in H3, H4.
    destruct (run_afterTileClick_rejected o hc s pg u0 msg ulog u2 H1 H2 H3 H4)
      as (r & Hcheck).
    subst hc.
    rewrite (run_selectTileLoop_clicked o h s pg n frame rest _ _ H0 Hcheck).
    destruct (includes u2 deadEndSegment).
    + eexists _, _. split; [reflexivity|]. split; [reflexivity|].
      by exists r.
    + pose proof (keeps_selectTileLoop pg n rest s o) as Hkeeps.
      match goal with |- context [run o ?h' s (App3.selectTileLoop pg n rest)] =>
        specialize (Hkeeps h');
        destruct (run o h' s (App3.selectTileLoop pg n rest))
          as [[out s'] t'] eqn:Hrest end.
      cbn in Hkeeps. subst s'.
      exists out, t'. split; [reflexivity|].
      rewrite <- Hrest. f_equal; by rewrite <- ?app_assoc, ?app_nil_r.
Qed.

Lemma completion_check_witness :
  let e0 := Ev (FrameEvaluate 1 (ClickTile 3)) (Ok true) in
  let e1 := Ev (Url 1) (Ok "https://www.linkedin.com/checkpoint/challenge") in
  let e2 := Ev tileRace (Ok 2) in
  let e3 := Ev (Delay 2000) (Ok tt) in
  let e4 := Ev (Url 1) (Ok "https://www.linkedin.com/feed/") in
  let deadEnd :=
    "https://www.linkedin.com/checkpoint/lg/login-challenge-submit" in
  let f1 := Ev (Url 1) (Ok deadEnd) in
  let f2 := Ev tileRace (Err "Navigation timeout of 10000 ms exceeded") in
  (follows navigatingPage [] [e0; e1; e2; e3; e4] /\
   exists out tl,
     run navigatingPage [] ∅ (App3.selectTileLoop 1 3 [1; 2])
       = (out, ∅, e0 :: e1 :: e2 :: e3 :: e4 :: tl) /\
     exists r tl', tl = Ev (PageEvaluate 1 HeaderText) r :: tl') /\
  (follows stuckOnDeadEnd [] [e0; f1; f2; f1; f1] /\
   exists out tl,
     run stuckOnDeadEnd [] ∅ (App3.selectTileLoop 1 3 [1; 2])
       = (out, ∅, e0 :: f1 :: f2 :: f1 :: f1 :: tl) /\
     out = Returned true /\
     exists r, tl = [Ev (Respond 200 (Send (JStr "lastcve"))) r]).
Proof.
  intros e0 e1 e2 e3 e4 deadEnd f1 f2. split.
  - split; [by repeat split|].
    destruct (proj1 completion_check_races_then_compares navigatingPage [] ∅
                1 3%Z 1 [2] "https://www.linkedin.com/checkpoint/challenge"
                "https://www.linkedin.com/feed/" 2)
      as (out & tl & Hrun & _ & _ & Hchanged); [by repeat split|].
    exists out, tl. split; [exact Hrun|].
    apply Hchanged. discriminate.
  - split; [by repeat split|].
    exact (proj2 completion_check_races_then_compares stuckOnDeadEnd [] ∅ 1
             3%Z 1 [2] deadEnd "Navigation timeout of 10000 ms exceeded"
             deadEnd deadEnd ltac:(by repeat split)).
Defined.

(** ** The password-rejection indicator *)

(** C10, at the failing input.  After a wrong password the page shows the
    indicator ([rejectingPage]).  The login route of [app3.js] never looks
    for it: it registers the session, answers 1 and starts the challenge
    flow.  The login route of [app2.js] on the same page finds the
    indicator, answers 0, registers nothing and starts no challenge
    flow. *)
Theorem login_ignores_password_rejection :
  let run3 := run rejectingPage [] ∅
                (App3.login (Some "s1") (Some "user@example.com")
                            (Some "wrong")) in
  let run2 := run rejectingPage [] ∅
                (App2.login (Some "s1") (Some "user@example.com")
                            (Some "wrong")) in
  (run3.1.2 = {[ "s1" := mkSession 1 1 ]} /\
   responses run3.2 = [(200, Send (JStr "1"))] /\
   filter (fun c => isQuery c = true) (calls run3.2) = [] /\
   searchRounds run3.2 = 1) /\
  (run2.1.2 = ∅ /\
   responses run2.2 = [(200, Send (JStr "0"))] /\
   filter (fun c => isQuery c = true) (calls run2.2)
     = [Query 1 App2.passwordErrorSelector] /\
   searchRounds run2.2 = 0).
Proof. vm_compute. repeat split. Qed.

(** In [app2.js], once the credentials are in and the click has led to a
    page on which the indicator is found, the route answers 0 and stops:
    the registry is as before and nothing else is called. *)
Lemma app2_login_stops_on_rejection (o : oracle) (h : list Event)
    (s : Sessions) (sessionId : string) (email password : option string)
    (bp : BrowserId * PageId) (t0 : list Event) :
  let click := ClickAndWaitForNavigation bp.2
                 ".login__form_action_container button" false in
  let look := Query bp.2 App2.passwordErrorSelector in
  truthy email = true ->
  sessionId <> "" ->
  isInherited sessionId = false ->
  s !! sessionId = None ->
  run o h s (enterCredentials email password) = (Returned bp, s, t0) ->
  o (h ++ t0) click = Ok tt ->
  o (h ++ t0 ++ [Ev click (Ok tt)]) look = Ok true ->
  exists r,
    run o h s (App2.login (Some sessionId) email password) =
      (Returned tt, s,
       t0 ++ [Ev click (Ok tt); Ev look (Ok true);
              Ev (Respond 200 (Send (JStr "0"))) r]).
Proof.
  intros click look He Hid _ Hs Hcred Hclick Hlook. subst click look.
  assert (Hi : truthy (Some sessionId) = true).
  { unfold truthy. by destruct (String.eqb_spec sessionId ""). }
  unfold App2.login, missing, mbind, prog_bind. rewrite He, Hi. cbn.
  rewrite Hs. cbn. rewrite run_try_catch_bind, Hcred. cbn.
  match goal with |- context [o ?h' (ClickAndWaitForNavigation ?a ?b ?c)] =>
    replace (o h' (ClickAndWaitForNavigation a b c)) with (@Ok unit tt)
      by (symmetry; exact Hclick) end.
  cbn.
  match goal with |- context [o ?h' (Query ?a ?b)] =>
    replace (o h' (Query a b)) with (@Ok bool true)
      by (symmetry; rewrite <- ?app_assoc; exact Hlook) end.
  cbn. by eexists.
Qed.

(** In [app3.js], once the credentials are in and the button is clicked,
    the session is registered and 1 is sent, whatever the page shows
    next: the route does not look at it. *)
Lemma app3_login_registers_unconditionally (o : oracle) (h : list Event)
    (s : Sessions) (sessionId : string) (email password : option string)
    (bp : BrowserId * PageId) (t0 : list Event) :
  let click := Click bp.2 ".login__form_action_container button" in
  truthy email = true ->
  sessionId <> "" ->
  isInherited sessionId = false ->
  s !! sessionId = None ->
  run o h s (enterCredentials email password) = (Returned bp, s, t0) ->
  o (h ++ t0) click = Ok tt ->
  exists out r rest,
    run o h s (App3.login (Some sessionId) email password) =
      (out, <[sessionId := mkSession bp.1 bp.2]> s,
       t0 ++ Ev click (Ok tt)
          :: Ev (Respond 200 (Send (JStr "1"))) r :: rest).
Proof.
  intros click He Hid _ Hs Hcred Hclick. subst click.
  assert (Hi : truthy (Some sessionId) = true).
  { unfold truthy. by destruct (String.eqb_spec sessionId ""). }
  unfold App3.login, missing, mbind, prog_bind. rewrite He, Hi. cbn.
  rewrite Hs. cbn. rewrite run_try_catch_around_send, run_bind', Hcred. cbn.
  match goal with |- context [o ?h' (Click ?a ?b)] =>
    replace (o h' (Click a b)) with (@Ok unit tt)
      by (symmetry; exact Hclick) end.
  cbn.
  match goal with |- context [o ?h' (Delay 10000)] =>
    destruct (o h' (Delay 10000)) as [[]|e] end; cbn.
  - rewrite run_try_catch_bind.
    match goal with |- context [run o ?h' ?s' (handleCaptchaChallenge ?a ?b ?c ?d)] =>
      pose proof (keeps_handleCaptchaChallenge a b c d s' o h') as Hk;
      destruct (run o h' s' (handleCaptchaChallenge a b c d))
        as [[[v|e] s''] t] end; simpl in Hk; subst s''; cbn;
      rewrite <- ?app_assoc; by eexists _, _, _.
  - rewrite <- ?app_assoc. by eexists _, _, _.
Qed.


(** * More of the code *)

(** ** Responses of composed programs *)

Lemma responses_app (t1 t2 : list Event) :
  responses (t1 ++ t2) = responses t1 ++ responses t2.
Proof.
  induction t1 as [|[c r] t1 IH]; [done|].
  destruct c; simpl; by rewrite ?IH.
Qed.

Lemma responses_silent_call (c : Call) (r : result (Resp c)) (t : list Event) :
  isRespond c = false -> responses (Ev c r :: t) = responses t.
Proof. by destruct c. Qed.

Section Replies.
Context {R : Type} (P : outcome R -> list (nat * Body) -> Prop).

Lemma replies_ret (r : R) : P (Returned r) [] -> replies P (Ret r).
Proof. by intros H o h s. Qed.

Lemma replies_throw (e : string) : P (Thrown e) [] -> replies P (@Throw R e).
Proof. by intros H o h s. Qed.

Lemma replies_respond (st : nat) (b : Body)
    (k : result (Resp (Respond st b)) -> prog R) :
  (forall r, replies (fun out l => P out ((st, b) :: l)) (k r)) ->
  replies P (Vis (Respond st b) k).
Proof.
  intros H o h s. simpl.
  specialize (H (o h (Respond st b)) o
                (h ++ [Ev (Respond st b) (o h (Respond st b))]) s).
  by destruct (run o _ s (k (o h (Respond st b)))) as [[? ?] ?].
Qed.

Lemma replies_vis (c : Call) (k : result (Resp c) -> prog R) :
  isRespond c = false ->
  (forall r, replies P (k r)) -> replies P (Vis c k).
Proof.
  intros Hc H o h s. cbn [run].
  specialize (H (o h c) o (h ++ [Ev c (o h c)]) s).
  destruct (run o _ s (k (o h c))) as [[? ?] ?]. cbn [fst snd] in *.
  by rewrite responses_silent_call.
Qed.

Lemma replies_get (k : Sessions -> prog R) :
  (forall s, replies P (k s)) -> replies P (GetSessions k).
Proof. intros H o h s. apply H. Qed.

Lemma replies_put (s' : Sessions) (k : prog R) :
  replies P k -> replies P (PutSessions s' k).
Proof. intros H o h s. apply H. Qed.

Lemma replies_bind {A : Type} (Q : outcome A -> list (nat * Body) -> Prop)
    (p : prog A) (f : A -> prog R) :
  replies Q p ->
  (forall a l1, Q (Returned a) l1 ->
                replies (fun out l2 => P out (l1 ++ l2)) (f a)) ->
  (forall e l1, Q (Thrown e) l1 -> P (Thrown e) l1) ->
  replies P (bind p f).
Proof.
  intros Hp Hf He o h s. rewrite run_bind'. specialize (Hp o h s).
  destruct (run o h s p) as [[[a|e] s'] t]; simpl in *.
  - specialize (Hf a _ Hp o (h ++ t) s').
    destruct (run o (h ++ t) s' (f a)) as [[? ?] ?]. simpl in *.
    by rewrite responses_app.
  - by apply He.
Qed.

Lemma replies_try_catch_bind {A : Type}
    (Q : outcome A -> list (nat * Body) -> Prop)
    (p : prog A) (f : A -> prog R) (hd : string -> prog R) :
  replies Q p ->
  (forall a l1, Q (Returned a) l1 ->
                replies (fun out l2 => P out (l1 ++ l2)) (try_catch (f a) hd)) ->
  (forall e l1, Q (Thrown e) l1 ->
                replies (fun out l2 => P out (l1 ++ l2)) (hd e)) ->
  replies P (try_catch (bind p f) hd).
Proof.
  intros Hp Hf He o h s. rewrite run_try_catch_bind. specialize (Hp o h s).
  destruct (run o h s p) as [[[a|e] s'] t]; simpl in *.
  - specialize (Hf a _ Hp o (h ++ t) s').
    destruct (run o (h ++ t) s' (try_catch (f a) hd)) as [[? ?] ?]. simpl in *.
    by rewrite responses_app.
  - specialize (He e _ Hp o (h ++ t) s').
    destruct (run o (h ++ t) s' (hd e)) as [[? ?] ?]. simpl in *.
    by rewrite responses_app.
Qed.

Lemma replies_around_send {A : Type}
    (Q : outcome A -> list (nat * Body) -> Prop)
    (p : prog A) (q : A -> prog R) (hd : bool -> string -> prog R) :
  replies Q p ->
  (forall a l1, Q (Returned a) l1 ->
                replies (fun out l2 => P out (l1 ++ l2))
                        (try_catch (q a) (hd true))) ->
  (forall e l1, Q (Thrown e) l1 ->
                replies (fun out l2 => P out (l1 ++ l2)) (hd false e)) ->
  replies P (try_catch_around_send p q hd).
Proof.
  intros Hp Hq Hhd o h s. rewrite run_try_catch_around_send.
  specialize (Hp o h s).
  destruct (run o h s p) as [[[a|e] s'] t]; simpl in *.
  - specialize (Hq a _ Hp o (h ++ t) s').
    destruct (run o (h ++ t) s' (try_catch (q a) (hd true))) as [[? ?] ?].
    simpl in *. by rewrite responses_app.
  - specialize (Hhd e _ Hp o (h ++ t) s').
    destruct (run o (h ++ t) s' (hd false e)) as [[? ?] ?]. simpl in *.
    by rewrite responses_app.
Qed.

Lemma replies_weaken (P' : outcome R -> list (nat * Body) -> Prop)
    (p : prog R) :
  replies P' p -> (forall out l, P' out l -> P out l) -> replies P p.
Proof. intros H Himp o h s. apply Himp, H. Qed.
End Replies.

(** With a sub-program that sends nothing. *)
Lemma replies_bind_silent {A R : Type}
    (P : outcome R -> list (nat * Body) -> Prop) (p : prog A)
    (f : A -> prog R) :
  silent p ->
  (forall a, replies P (f a)) ->
  (forall e, P (Thrown e) []) ->
  replies P (bind p f).
Proof.
  intros Hp Hf He. eapply replies_bind; [exact Hp|..].
  - intros a l1 ->. apply Hf.
  - intros e l1 ->. apply He.
Qed.

Lemma replies_try_catch_bind_silent {A R : Type}
    (P : outcome R -> list (nat * Body) -> Prop) (p : prog A)
    (f : A -> prog R) (hd : string -> prog R) :
  silent p ->
  (forall a, replies P (try_catch (f a) hd)) ->
  (forall e, replies P (hd e)) ->
  replies P (try_catch (bind p f) hd).
Proof.
  intros Hp Hf He. eapply replies_try_catch_bind; [exact Hp|..].
  - intros a l1 ->. apply Hf.
  - intros e l1 ->. apply He.
Qed.

Create HintDb silent.

(** One step of a proof about the responses of a program. *)
Ltac replies_step :=
  cbn;
  match goal with
  | |- silent _ => unfold silent
  | |- replies _ (Ret _) => apply replies_ret
  | |- replies _ (Throw _) => apply replies_throw
  | |- replies _ (Vis (Respond _ _) _) => apply replies_respond; intros ?
  | |- replies _ (Vis _ _) => apply replies_vis; [reflexivity|intros [?|?]]
  | |- replies _ (GetSessions _) => apply replies_get; intros ?
  | |- replies _ (PutSessions _ _) => apply replies_put
  | |- replies _ (call _) => unfold call
  | |- replies _ (respond _ _) => unfold respond
  | |- replies _ (respondOnce _ _ _) => unfold respondOnce
  | |- replies _ (delay _) => unfold delay, call
  | |- replies _ (getSession _) => unfold getSession
  | |- replies _ (setSession _ _) => unfold setSession
  | |- replies _ (if ?b then _ else _) => destruct b eqn:?
  | |- replies _ (match ?x with _ => _ end) => destruct x eqn:?
  | |- replies _ (bind (if ?b then _ else _) _) => destruct b eqn:?
  | |- replies _ (try_catch (if ?b then _ else _) _) => destruct b eqn:?
  | |- replies _ (try_catch (match ?x with _ => _ end) _) => destruct x eqn:?
  | |- replies _ (try_catch (bind (if ?b then _ else _) _) _) =>
      destruct b eqn:?
  | |- replies _ (bind _ _) =>
      apply replies_bind_silent; [solve [eauto with silent] | intros ? | intros ?]
  | |- replies _ (try_catch (bind _ _) _) =>
      apply replies_try_catch_bind_silent;
        [solve [eauto with silent] | intros ? | intros ?]
  | |- replies _ ?p => change (silent p); solve [eauto with silent]
  end.

Ltac replies := repeat replies_step; cbn.

Lemma responses_none (t : list Event) :
  Forall (fun e => isRespond (ev_call e) = false) t -> responses t = [].
Proof.
  induction 1 as [|[c r] t Hc _ IH]; [done|].
  by rewrite responses_silent_call.
Qed.

Lemma silent_search (f : Frame) : silent (findAndClickStartPuzzleButton f).
Proof.
  intros o h s.
  destruct (run_search_summary o f h s) as (found & t & -> & _ & Hcalls).
  apply responses_none. eapply Forall_impl; [exact Hcalls|].
  intros [[] r]; simpl; congruence.
Qed.

Lemma silent_handlePuzzleTiles frame browser sessionId :
  silent (handlePuzzleTiles frame browser sessionId).
Proof.
  intros o h s.
  destruct (run_handlePuzzleTiles o frame browser sessionId h s)
    as (out & t & -> & _ & Hcalls).
  apply responses_none. eapply Forall_impl; [exact Hcalls|].
  intros [[] r]; simpl; congruence.
Qed.

Lemma silent_tilesLoop again page browser sessionId challengeCount frames :
  silent (tilesLoop again page browser sessionId challengeCount frames).
Proof.
  intros o h s.
  destruct (run_tilesLoop o again page browser sessionId challengeCount
              frames h s) as (out & t & -> & _ & Hcalls).
  apply responses_none. eapply Forall_impl; [exact Hcalls|].
  intros [[] r]; simpl; congruence.
Qed.

#[local] Hint Resolve silent_search silent_handlePuzzleTiles silent_tilesLoop
  : silent.

Arguments tilesLoop : simpl never.

Lemma silent_handleCaptchaChallenge page browser sessionId challengeCount :
  silent (handleCaptchaChallenge page browser sessionId challengeCount).
Proof.
  unfold handleCaptchaChallenge. rewrite captchaFrom_unfold.
  unfold captchaRound, mbind, prog_bind. replies; done.
Qed.

Lemma silent_submitPin page code : silent (App3.submitPin page code).
Proof. unfold App3.submitPin, mbind, prog_bind. replies; done. Qed.

Lemma silent_submitPhone page phone countryCode :
  silent (App3.submitPhone page phone countryCode).
Proof. unfold App3.submitPhone, mbind, prog_bind. replies; done. Qed.

Lemma silent_enterCredentials email password :
  silent (enterCredentials email password).
Proof. unfold enterCredentials, mbind, prog_bind. replies; done. Qed.

#[local] Hint Resolve silent_handleCaptchaChallenge silent_submitPin
  silent_submitPhone silent_enterCredentials : silent.


(** ** Every request is answered *)

Lemma replies_afterTileClick page :
  replies sentIfTrue (App3.afterTileClick page).
Proof.
  unfold App3.afterTileClick, mbind, prog_bind. replies; done.
Qed.

Lemma replies_selectTileLoop page tileNumber frames :
  replies sentIfTrue (App3.selectTileLoop page tileNumber frames).
Proof.
  induction frames as [|frame rest IH].
  - by replies.
  - change (App3.selectTileLoop page tileNumber (frame :: rest)) with
      (clicked ← call (FrameEvaluate frame (ClickTile tileNumber));
       sent ← (if clicked : bool then App3.afterTileClick page else Ret false);
       if sent : bool then Ret true
       else App3.selectTileLoop page tileNumber rest).
    unfold mbind, prog_bind, call. cbn.
    apply replies_vis; [done|]. intros [[|]|e]; cbn; [|exact IH|by replies].
    eapply replies_bind; [apply replies_afterTileClick|..].
    + intros [|] l1 Hl1; simpl in Hl1.
      * apply replies_ret. by rewrite app_nil_r.
      * subst l1. exact IH.
    + by intros e l1 Hl1.
Qed.

Lemma replies_tilesHtmlLoop frames :
  replies sentIfTrue (App3.tilesHtmlLoop frames).
Proof.
  induction frames as [|frame rest IH].
  - by replies.
  - change (App3.tilesHtmlLoop (frame :: rest)) with
      (tilesHtml ← call (FrameEvaluate frame TilesHtml);
       match tilesHtml with
       | Some tiles =>
           respond 200 (SendJson (JObj [("status", JStr "success");
                                        ("tiles", JArr (map JStr tiles))]));;
           Ret true
       | None => App3.tilesHtmlLoop rest
       end).
    unfold mbind, prog_bind, call. cbn.
    apply replies_vis; [done|]. intros [[tiles|]|e]; cbn;
      [by replies|exact IH|by replies].
Qed.

(** The run ended as [sendsOnce] says. *)
Ltac sent_once :=
  cbn;
  repeat match goal with u : unit |- _ => destruct u end;
  first
    [ split; [reflexivity | by eexists]
    | left; split; [reflexivity | by eexists]
    | right; left; split; [reflexivity | by eexists]
    | right; right; split; [reflexivity | split; [reflexivity | by eexists]]
    | right; split; [reflexivity | by eexists] ].

Lemma replies_login_until_sent (sessionId : string)
    (email password : option string) :
  replies sentOne
    (bind (enterCredentials email password)
       (fun bp =>
          bind (call (Click bp.2 ".login__form_action_container button"))
            (fun _ =>
               bind (setSession sessionId (mkSession bp.1 bp.2))
                 (fun _ => bind (respond 200 (Send (JStr "1")))
                             (fun _ => Ret bp))))).
Proof. unfold sentOne. replies; done. Qed.

(** X1.  Every route of [app3.js] that acts on a session returns having
    sent exactly one response, whatever the page does and whichever call
    throws.  The [login] route sends exactly one response too; when a call
    fails after it sent 1, its [catch] calls [res.send] a second time,
    that call throws because the response is out, and the handler ends
    with that exception.  The two calls made outside any [try],
    [uuidv4()] in [login] and the file-system test of the image check, end
    the handler with nothing sent if they throw. *)
Theorem every_request_is_answered (o : oracle) (h : list Event)
    (s : Sessions) (req : App3.Request) :
  sendsOnce req (run o h s (App3.handle req)).1.1
            (responses (run o h s (App3.handle req)).2).
Proof.
  revert o h s.
  change (replies (sendsOnce req) (App3.handle req)).
  destruct req; unfold App3.handle, App3.check_puzzle_image, App3.login,
    App3.security_verification, App3.select_tile, App3.verify_code,
    App3.verify_sms, App3.verify_phone, App3.update_phone,
    App3.check_login_status, sendsOnce, mbind, prog_bind.
  all: replies; try sent_once.
  - eapply (replies_around_send _ sentOne);
      [apply replies_login_until_sent|..].
    + intros bp l1 ->. replies; sent_once.
    + intros e l1 ->. replies; sent_once.
  - eapply (replies_around_send _ sentOne);
      [apply replies_login_until_sent|..].
    + intros bp l1 ->. replies; sent_once.
    + intros e l1 ->. replies; sent_once.
  - eapply replies_try_catch_bind; [apply replies_tilesHtmlLoop|..].
    + intros [|] l1 Hl1; simpl in Hl1; replies.
      * rewrite app_nil_r. destruct l1 as [|r [|]]; try discriminate Hl1.
        sent_once.
      * subst l1. sent_once.
    + intros e l1 Hl1. simpl in Hl1. subst l1. replies. sent_once.
  - eapply replies_try_catch_bind; [apply replies_selectTileLoop|..].
    + intros [|] l1 Hl1; simpl in Hl1; replies.
      * rewrite app_nil_r. destruct l1 as [|r [|]]; try discriminate Hl1.
        sent_once.
      * subst l1. sent_once.
    + intros e l1 Hl1. simpl in Hl1. subst l1. replies. sent_once.
Qed.

(** ** The status poll *)

(** X2.  The status poll never reports an error: whatever the session id,
    the registry and the page (also when a call on the page throws), it
    sends one response, with status 200 and a text that is not empty. *)
Theorem status_poll_always_200 (o : oracle) (h : list Event) (s : Sessions)
    (sessionId : option string) :
  exists b,
    responses (run o h s (App3.check_login_status sessionId)).2
      = [(200, Send (JStr b))] /\ b <> "".
Proof.
  revert o h s.
  change (replies (fun _ l => exists b, l = [(200, Send (JStr b))] /\ b <> "")
                  (App3.check_login_status sessionId)).
  unfold App3.check_login_status, mbind, prog_bind.
  replies; try (by eexists).
  match goal with |- context [truthy ?a] => destruct a as [t|] end;
    [|by eexists].
  unfold truthy. destruct (String.eqb_spec t ""); by eexists.
Qed.

(** X3.  The status poll of a live session whose address was read.  If the
    address contains feed it answers 1 without looking at the document.
    Otherwise it reads the header: a non-empty header text is the answer;
    no header, or an empty one, gives 0; a failed read gives 1 when the
    message says that the execution context was destroyed (the page is
    navigating) and 0 for any other failure. *)
Theorem status_poll_outcomes (o : oracle) (h : list Event) (s : Sessions)
    (sessionId : string) (session : Session) (u : string) :
  let e1 := Ev (Url (page session)) (Ok u) in
  let look := PageEvaluate (page session) HeaderText in
  sessionId <> "" ->
  s !! sessionId = Some session ->
  o h (Url (page session)) = Ok u ->
  exists r,
    run o h s (App3.check_login_status (Some sessionId)) =
      (Returned tt, s,
       if includes u "feed"
       then [e1; Ev (Respond 200 (Send (JStr "1"))) r]
       else [e1; Ev look (o (h ++ [e1]) look);
             Ev (Respond 200
                   (Send (JStr
                      match o (h ++ [e1]) look with
                      | Ok t => if truthy t then default "" t else "0"
                      | Err e =>
                          if includes e "Execution context was destroyed"
                          then "1" else "0"
                      end))) r]).
Proof.
  intros e1 look Hid Hs Hu. subst e1 look.
  assert (Hi : truthy (Some sessionId) = true).
  { unfold truthy. by destruct (String.eqb_spec sessionId ""). }
  unfold App3.check_login_status, missing, mbind, prog_bind.
  rewrite Hi. cbn. rewrite Hs. cbn. rewrite Hu. cbn.
  destruct (includes u "feed"); cbn; [by eexists|].
  destruct (o (h ++ [Ev (Url (page session)) (Ok u)])
              (PageEvaluate (page session) HeaderText)) as [t|e]; cbn.
  - by eexists.
  - destruct (includes e "Execution context was destroyed"); cbn; by eexists.
Qed.

Lemma status_poll_outcomes_witness :
  ({[ "s1" := mkSession 1 1 ]} : Sessions) !! "s1" = Some (mkSession 1 1) /\
  responses (run navigatingAway [] {[ "s1" := mkSession 1 1 ]}
                 (App3.check_login_status (Some "s1"))).2
    = [(200, Send (JStr "1"))].
Proof.
  split; [reflexivity|].
  destruct (status_poll_outcomes navigatingAway [] {[ "s1" := mkSession 1 1 ]}
              "s1" (mkSession 1 1)
              "https://www.linkedin.com/checkpoint/challenge")
    as [r Hrun]; [discriminate|reflexivity|reflexivity|].
  by rewrite Hrun.
Defined.

(** ** Fetching the puzzle image *)

(** X4.  Once [downloadPuzzlePiece] has its new page and its CDP client,
    it always goes on to detach the client, however many of the five
    download steps were made before one failed; a failure of a step is
    swallowed.  If the detach succeeds the page is closed next and the
    function throws only what the close throws; if the detach throws, the
    function throws that and the page is never closed. *)
Theorem download_always_detaches (o : oracle) (h : list Event) (s : Sessions)
    (browser : BrowserId) (blobUrl sessionId : string) (newPage : PageId)
    (client : ClientId) :
  let e1 := Ev (NewPage browser) (Ok newPage) in
  let e2 := Ev (CreateCDPSession newPage) (Ok client) in
  o h (NewPage browser) = Ok newPage ->
  o (h ++ [e1]) (CreateCDPSession newPage) = Ok client ->
  exists out steps rd rest,
    run o h s (downloadPuzzlePiece browser blobUrl sessionId)
      = (out, s, e1 :: e2 :: steps ++ Ev (ClientDetach client) rd :: rest) /\
    calls steps `prefix_of` downloadSteps client newPage blobUrl sessionId /\
    match rd with
    | Ok _ =>
        exists rc, rest = [Ev (PageClose newPage) rc] /\
                   out = match rc with
                         | Ok _ => Returned tt
                         | Err e => Thrown e
                         end
    | Err e => rest = [] /\ out = Thrown e
    end.
Proof.
  intros e1 e2 H1 H2. subst e1 e2.
  unfold downloadPuzzlePiece, try_finally, delay, mbind, prog_bind. cbn.
  rewrite H1. cbn.
  match goal with |- context [o ?h' (CreateCDPSession newPage)] =>
    replace (o h' (CreateCDPSession newPage)) with (@Ok ClientId client)
      by (symmetry; exact H2) end.
  exec.
  all: first
    [ eexists _, [], _, _; split; [reflexivity|]
    | eexists _, [_], _, _; split; [reflexivity|]
    | eexists _, [_; _], _, _; split; [reflexivity|]
    | eexists _, [_; _; _], _, _; split; [reflexivity|]
    | eexists _, [_; _; _; _], _, _; split; [reflexivity|]
    | eexists _, [_; _; _; _; _], _, _; split; [reflexivity|] ].
  all: split; [eexists; reflexivity|]; cbn; try done; try (by eexists).
  all: eexists; split; [reflexivity|]; cbn.
  all: match goal with |- Returned ?a = _ => by destruct a end.
Qed.

Lemma download_always_detaches_witness :
  brokenBlob [] (NewPage 1) = Ok 1 /\
  exists out steps rd rest,
    run brokenBlob [] ∅ (downloadPuzzlePiece 1 "blob:gone" "s1")
      = (out, ∅,
         Ev (NewPage 1) (Ok 1) :: Ev (CreateCDPSession 1) (Ok 1)
           :: steps ++ Ev (ClientDetach 1) rd :: rest) /\
    calls steps `prefix_of` downloadSteps 1 1 "blob:gone" "s1" /\
    match rd with
    | Ok _ =>
        exists rc, rest = [Ev (PageClose 1) rc] /\
                   out = match rc with
                         | Ok _ => Returned tt
                         | Err e => Thrown e
                         end
    | Err e => rest = [] /\ out = Thrown e
    end.
Proof.
  split; [reflexivity|].
  exact (download_always_detaches brokenBlob [] ∅ 1 "blob:gone" "s1" 1 1
           eq_refl eq_refl).
Defined.

(** X5.  [handlePuzzleTiles] opens a page to fetch the image exactly when
    the frame reports six tiles and then gives a blob address that is not
    empty; in every other case (fewer or more tiles, no first tile, a
    background that is not a blob) no page is opened. *)
Theorem image_fetched_iff_six_tiles_and_blob (o : oracle) (h : list Event)
    (s : Sessions) (frame : FrameId) (browser : BrowserId)
    (sessionId : string) :
  let count := FrameEvaluate frame TilesExist in
  existsb isNewPage
    (calls (run o h s (handlePuzzleTiles frame browser sessionId)).2) = true
  <->
  o h count = Ok true /\
  exists u, o (h ++ [Ev count (Ok true)]) (FrameEvaluate frame FirstTileBlobUrl)
              = Ok (Some u) /\ u <> "".
Proof.
  intros count. subst count.
  unfold handlePuzzleTiles, mbind, prog_bind. cbn.
  destruct (o h (FrameEvaluate frame TilesExist)) as [[|]|e] eqn:Hc; cbn.
  - destruct (o (h ++ [Ev (FrameEvaluate frame TilesExist) (Ok true)])
                (FrameEvaluate frame FirstTileBlobUrl)) as [[u|]|e] eqn:Hb; cbn.
    + unfold truthy. destruct (String.eqb_spec u "") as [->|Hu]; cbn.
      * split; [done|]. by intros (_ & u & [= <-] & Hu).
      * unfold downloadPuzzlePiece, mbind, prog_bind. cbn.
        match goal with |- context [run o ?h' s ?p] =>
          destruct (run o h' s p) as [[? ?] ?] end.
        cbn. split; [|done]. intros _. split; [done|]. by exists u.
    + split; [done|]. by intros (_ & u & [=] & _).
    + split; [done|]. by intros (_ & u & [=] & _).
  - split; [done|]. by intros [[=] _].
  - split; [done|]. by intros [[=] _].
Qed.

(** ** Tile selection *)

(** X6.  When the race after a tile click is lost to a rejection (a
    navigation or network-idle wait that timed out or failed), the handler
    reads the address twice more and decides on the last reading alone: if
    it contains the dead-end segment it answers lastcve, otherwise it sends
    nothing and the loop over the frames goes on.  The address read before
    the race is not compared. *)
Theorem rejected_race_decides_on_address (o : oracle) (h : list Event)
    (s : Sessions) (page : PageId) (u0 msg ulog u2 : string) :
  let e1 := Ev (Url page) (Ok u0) in
  let e2 := Ev tileRace (Err msg) in
  let e3 := Ev (Url page) (Ok ulog) in
  let e4 := Ev (Url page) (Ok u2) in
  o h (Url page) = Ok u0 ->
  o (h ++ [e1]) tileRace = Err msg ->
  o (h ++ [e1; e2]) (Url page) = Ok ulog ->
  o (h ++ [e1; e2; e3]) (Url page) = Ok u2 ->
  exists r,
    run o h s (App3.afterTileClick page) =
      (Returned (includes u2 deadEndSegment), s,
       e1 :: e2 :: e3 :: e4 ::
         (if includes u2 deadEndSegment
          then [Ev (Respond 200 (Send (JStr "lastcve"))) r]
          else [])).
Proof.
  intros e1 e2 e3 e4 H1 H2 H3 H4. subst e1 e2 e3 e4.
  unfold App3.afterTileClick, delay, mbind, prog_bind, tileRace in *. cbn.
  rewrite H1. cbn.
  match goal with |- context [o ?h' (Race ?l)] =>
    replace (o h' (Race l)) with (@Err nat msg) by (symmetry; exact H2) end.
  cbn.
  match goal with |- context [o ?h' (Url page)] =>
    replace (o h' (Url page)) with (@Ok string ulog)
      by (symmetry; rewrite <- ?app_assoc; exact H3) end.
  cbn.
  match goal with |- context [o ?h' (Url page)] =>
    replace (o h' (Url page)) with (@Ok string u2)
      by (symmetry; rewrite <- ?app_assoc; exact H4) end.
  cbn. destruct (includes u2 deadEndSegment); cbn.
  - eexists. reflexivity.
  - exists (Ok tt). reflexivity.
Qed.

Lemma rejected_race_witness :
  timedOutOnDeadEnd [] (Url 1)
    = Ok "https://www.linkedin.com/checkpoint/lg/login-challenge-submit" /\
  exists r,
    run timedOutOnDeadEnd [] ∅ (App3.afterTileClick 1) =
      (Returned true, ∅,
       [Ev (Url 1)
           (Ok "https://www.linkedin.com/checkpoint/lg/login-challenge-submit");
        Ev tileRace (Err "Navigation timeout of 10000 ms exceeded");
        Ev (Url 1)
           (Ok "https://www.linkedin.com/checkpoint/lg/login-challenge-submit");
        Ev (Url 1)
           (Ok "https://www.linkedin.com/checkpoint/lg/login-challenge-submit");
        Ev (Respond 200 (Send (JStr "lastcve"))) r]).
Proof.
  split; [reflexivity|].
  exact (rejected_race_decides_on_address timedOutOnDeadEnd [] ∅ 1 _ _ _ _
           eq_refl eq_refl eq_refl eq_refl).
Defined.

(** ** The tiles of the puzzle *)

Lemma run_tilesHtmlLoop (o : oracle) (s : Sessions) (frames : list FrameId) :
  forall h,
    (exists pre f tiles post r,
        frames = pre ++ f :: post /\
        run o h s (App3.tilesHtmlLoop frames) =
          (Returned true, s,
           noTilesIn pre ++
             [Ev (FrameEvaluate f TilesHtml) (Ok (Some tiles));
              Ev (Respond 200 (tilesFoundBody tiles)) r])) \/
    run o h s (App3.tilesHtmlLoop frames) = (Returned false, s, noTilesIn frames) \/
    (exists pre f post e,
        frames = pre ++ f :: post /\
        run o h s (App3.tilesHtmlLoop frames) =
          (Thrown e, s,
           noTilesIn pre ++ [Ev (FrameEvaluate f TilesHtml) (Err e)])).
Proof.
  induction frames as [|f rest IH]; intros h.
  - right; left. reflexivity.
  - change (App3.tilesHtmlLoop (f :: rest)) with
      (tilesHtml ← call (FrameEvaluate f TilesHtml);
       match tilesHtml with
       | Some tiles =>
           respond 200 (tilesFoundBody tiles);; Ret true
       | None => App3.tilesHtmlLoop rest
       end).
    unfold mbind, prog_bind. cbn.
    destruct (o h (FrameEvaluate f TilesHtml)) as [[tiles|]|e] eqn:Hf; cbn.
    + left. exists [], f, tiles, rest. eexists. split; reflexivity.
    + specialize (IH (h ++ [Ev (FrameEvaluate f TilesHtml) (Ok None)])).
      destruct IH as [(pre & g & tiles & post & r & -> & ->)
                     |[->|(pre & g & post & e & -> & ->)]].
      * left. exists (f :: pre), g, tiles, post, r. split; reflexivity.
      * right; left. reflexivity.
      * right; right. exists (f :: pre), g, post, e. split; reflexivity.
    + right; right. exists [], f, rest, e. split; reflexivity.
Qed.

(** X7.  For a registered session, the tiles route asks the page's frames in
    order and answers with the tiles of the first frame that has any; the
    frames after it are not asked.  It answers 404 only after every frame
    answered that it has none, and when a frame cannot be evaluated it stops
    there and answers 500 with the error's message. *)
Theorem tiles_come_from_first_frame_with_tiles (o : oracle) (h : list Event)
    (s : Sessions) (sessionId : string) (session : Session)
    (frames : list FrameId) :
  sessionId <> "" ->
  s !! sessionId = Some session ->
  o h (Frames (page session)) = Ok frames ->
  exists t (r : result unit),
    run o h s (App3.security_verification (Some sessionId))
      = (Returned tt, s, Ev (Frames (page session)) (Ok frames) :: t) /\
    ((exists pre f tiles post,
         frames = pre ++ f :: post /\
         t = noTilesIn pre ++
               [Ev (FrameEvaluate f TilesHtml) (Ok (Some tiles));
                Ev (Respond 200 (tilesFoundBody tiles)) r]) \/
     t = noTilesIn frames ++
           [Ev (Respond 404 (jsonError "No puzzle tiles found")) r] \/
     (exists pre f post e,
         frames = pre ++ f :: post /\
         t = noTilesIn pre ++
               [Ev (FrameEvaluate f TilesHtml) (Err e);
                Ev (Respond 500
                      (jsonError ("Failed to get puzzle tiles: " +:+ e))) r])).
Proof.
  intros Hid Hs Hfr.
  unfold App3.security_verification.
  assert (missing (Some sessionId) = false) as ->.
  { unfold missing, truthy. destruct (String.eqb_spec sessionId ""); done. }
  unfold mbind, prog_bind. cbn. rewrite Hs. cbn. rewrite Hfr. cbn.
  rewrite run_try_catch_bind.
  destruct (run_tilesHtmlLoop o s frames
              (h ++ [Ev (Frames (page session)) (Ok frames)]))
    as [(pre & f & tiles & post & r & Hsplit & ->)
       |[->|(pre & f & post & e & Hsplit & ->)]]; cbn.
  - eexists _, r. split; [reflexivity|]. left.
    exists pre, f, tiles, post. by rewrite app_nil_r.
  - eexists _, _. split; [reflexivity|]. right; left. reflexivity.
  - eexists _, _. split; [reflexivity|]. right; right.
    exists pre, f, post, e. split; [done|].
    rewrite <- app_assoc. reflexivity.
Qed.

Lemma tiles_come_from_first_frame_witness :
  ("s1" : string) <> "" /\
  exists t (r : result unit),
    run tilesInLaterFrames [] {[ "s1" := mkSession 1 1 ]}
        (App3.security_verification (Some "s1"))
      = (Returned tt, {[ "s1" := mkSession 1 1 ]},
         Ev (Frames 1) (Ok [1; 2; 3]) :: t) /\
    ((exists pre f tiles post,
         [1; 2; 3] = pre ++ f :: post /\
         t = noTilesIn pre ++
               [Ev (FrameEvaluate f TilesHtml) (Ok (Some tiles));
                Ev (Respond 200 (tilesFoundBody tiles)) r]) \/
     t = noTilesIn [1; 2; 3] ++
           [Ev (Respond 404 (jsonError "No puzzle tiles found")) r] \/
     (exists pre f post e,
         [1; 2; 3] = pre ++ f :: post /\
         t = noTilesIn pre ++
               [Ev (FrameEvaluate f TilesHtml) (Err e);
                Ev (Respond 500
                      (jsonError ("Failed to get puzzle tiles: " +:+ e))) r])).
Proof.
  split; [discriminate|].
  exact (tiles_come_from_first_frame_with_tiles tilesInLaterFrames []
           {[ "s1" := mkSession 1 1 ]} "s1" (mkSession 1 1) [1; 2; 3]
           ltac:(discriminate) ltac:(by vm_compute) eq_refl).
Defined.

Lemma calls_app (t1 t2 : list Event) : calls (t1 ++ t2) = calls t1 ++ calls t2.
Proof. unfold calls. apply map_app. Qed.

Section StillPage.

Variables (o : oracle) (page : PageId) (u : string).
Hypothesis address_stays : forall h, o h (Url page) = Ok u.
Hypothesis nothing_throws : forall h c e, o h c <> Err e.

Lemma still_afterTileClick (h : list Event) (s : Sessions) :
  exists t,
    run o h s (App3.afterTileClick page) = (Returned false, s, t) /\
    responses t = [] /\
    List.filter isClickTile (calls t) = [].
Proof.
  unfold App3.afterTileClick, delay, mbind, prog_bind. cbn.
  rewrite address_stays. cbn.
  match goal with |- context [o ?h' (Race ?l)] =>
    destruct (o h' (Race l)) as [n|e] eqn:Hrace;
      [|by destruct (nothing_throws _ _ _ Hrace)] end.
  cbn.
  match goal with |- context [o ?h' (Delay ?d)] =>
    destruct (o h' (Delay d)) as [[]|e] eqn:Hdelay;
      [|by destruct (nothing_throws _ _ _ Hdelay)] end.
  cbn. rewrite address_stays. cbn. rewrite String.eqb_refl. cbn.
  eexists. split; [reflexivity|]. split; reflexivity.
Qed.

Lemma still_selectTileLoop (s : Sessions) (tileNumber : Z)
    (frames : list FrameId) :
  forall h,
    exists t,
      run o h s (App3.selectTileLoop page tileNumber frames)
        = (Returned false, s, t) /\
      responses t = [] /\
      List.filter isClickTile (calls t)
        = map (fun f => FrameEvaluate f (ClickTile tileNumber)) frames.
Proof.
  induction frames as [|f rest IH]; intros h.
  - exists []. split; [reflexivity|]. split; reflexivity.
  - change (App3.selectTileLoop page tileNumber (f :: rest)) with
      (clicked ← call (FrameEvaluate f (ClickTile tileNumber));
       sent ← (if clicked : bool then App3.afterTileClick page else Ret false);
       if sent : bool then Ret true
       else App3.selectTileLoop page tileNumber rest).
    rewrite run_bind. unfold call at 1. cbn [run].
    destruct (o h (FrameEvaluate f (ClickTile tileNumber))) as [clicked|e]
      eqn:Hclick; [|by destruct (nothing_throws _ _ _ Hclick)].
    cbn [run]. rewrite run_bind.
    destruct clicked.
    + match goal with
      | |- context [run o ?h' s (App3.afterTileClick page)] =>
          destruct (still_afterTileClick h' s) as (t1 & -> & Hr1 & Hc1)
      end.
      match goal with
      | |- context [run o ?h' s (App3.selectTileLoop page tileNumber rest)] =>
          destruct (IH h') as (t2 & -> & Hr2 & Hc2)
      end.
      eexists. split; [reflexivity|].
      split.
      * rewrite !responses_app, Hr1, Hr2. reflexivity.
      * rewrite !calls_app, !List.filter_app, Hc1, Hc2. reflexivity.
    + cbn [run].
      match goal with
      | |- context [run o ?h' s (App3.selectTileLoop page tileNumber rest)] =>
          destruct (IH h') as (t2 & -> & Hr2 & Hc2)
      end.
      eexists. split; [reflexivity|].
      split.
      * rewrite !responses_app, Hr2. reflexivity.
      * rewrite !calls_app, !List.filter_app, Hc2. reflexivity.
Qed.

End StillPage.

(** X8.  On a page whose address stays the same and where no call fails,
    the tile route clicks the chosen tile in every frame of the page, one
    frame after the other, and then answers 404 with the text that no puzzle
    tiles were found: a click that landed is only reported when the address
    changes (or, after a failed wait, is the dead end). *)
Theorem landed_clicks_reported_as_no_tiles (o : oracle) (h : list Event)
    (s : Sessions) (sessionId : string) (tileNumber : Z) (session : Session)
    (u : string) (frames : list FrameId) :
  sessionId <> "" ->
  tileInvalid (Some tileNumber) = false ->
  s !! sessionId = Some session ->
  o h (Frames (page session)) = Ok frames ->
  (forall h', o h' (Url (page session)) = Ok u) ->
  (forall h' c e, o h' c <> Err e) ->
  let res := run o h s (App3.select_tile (Some sessionId) (Some tileNumber)) in
  res.1 = (Returned tt, s) /\
  responses res.2 = [(404, jsonError "No puzzle tiles found")] /\
  List.filter isClickTile (calls res.2)
    = map (fun f => FrameEvaluate f (ClickTile tileNumber)) frames.
Proof.
  intros Hid Htile Hs Hfr Hstay Hok res. subst res.
  unfold App3.select_tile.
  assert (missing (Some sessionId) = false) as ->.
  { unfold missing, truthy. destruct (String.eqb_spec sessionId ""); done. }
  rewrite Htile.
  unfold mbind, prog_bind. cbn. rewrite Hs. cbn. rewrite Hfr. cbn.
  rewrite run_try_catch_bind.
  match goal with
  | |- context [run o ?h' s (App3.selectTileLoop _ _ _)] =>
      destruct (still_selectTileLoop o (page session) u Hstay Hok s tileNumber
                  frames h') as (t & -> & Hr & Hc)
  end.
  cbn. split; [reflexivity|].
  split.
  - rewrite responses_app, Hr. reflexivity.
  - rewrite calls_app, List.filter_app, Hc. cbn. by rewrite app_nil_r.
Qed.

Lemma landed_clicks_witness :
  tileInvalid (Some 3%Z) = false /\
  stillPage [] (FrameEvaluate 1 (ClickTile 3)) = Ok true /\
  let res := run stillPage [] {[ "s1" := mkSession 1 1 ]}
                 (App3.select_tile (Some "s1") (Some 3%Z)) in
  res.1 = (Returned tt, {[ "s1" := mkSession 1 1 ]}) /\
  responses res.2 = [(404, jsonError "No puzzle tiles found")] /\
  List.filter isClickTile (calls res.2)
    = map (fun f => FrameEvaluate f (ClickTile 3)) [1; 2].
Proof.
  split; [reflexivity|]. split; [reflexivity|].
  exact (landed_clicks_reported_as_no_tiles stillPage []
           {[ "s1" := mkSession 1 1 ]} "s1" 3 (mkSession 1 1)
           "https://www.linkedin.com/checkpoint/challenge" [1; 2]
           ltac:(discriminate) eq_refl ltac:(by vm_compute) eq_refl
           (fun _ => eq_refl)
           ltac:(intros h' c e; destruct c; try discriminate;
                 match goal with sc : Script |- _ => destruct sc end;
                 discriminate)).
Defined.

(** ** Logging in *)

(** X9.  Creating a session and polling it compose, for a session id that
    is not the name of a member every object inherits.  Before the login
    a status poll for the id answers 0 and touches no page.  After a login
    that got as far as clicking the sign-in button, a poll for the same id
    starts by reading the address of the very page the login opened. *)
Theorem poll_reads_page_opened_by_login (o : oracle) (h : list Event)
    (s : Sessions) (sessionId : string) (email password : option string)
    (bp : BrowserId * PageId) (t0 : list Event) :
  let click := Click bp.2 ".login__form_action_container button" in
  truthy email = true ->
  sessionId <> "" ->
  isInherited sessionId = false ->
  s !! sessionId = None ->
  run o h s (enterCredentials email password) = (Returned bp, s, t0) ->
  o (h ++ t0) click = Ok tt ->
  let s' := (run o h s (App3.login (Some sessionId) email password)).1.2 in
  forall (o' : oracle) (h' : list Event),
    (exists r,
        run o' h' s (App3.check_login_status (Some sessionId))
          = (Returned tt, s, [Ev (Respond 200 (Send (JStr "0"))) r])) /\
    (exists rest,
        (run o' h' s' (App3.check_login_status (Some sessionId))).2
          = Ev (Url bp.2) (o' h' (Url bp.2)) :: rest).
Proof.
  intros click He Hid Hown Hs Hcred Hclick s' o' h'.
  assert (Hi : truthy (Some sessionId) = true).
  { unfold truthy. by destruct (String.eqb_spec sessionId ""). }
  destruct (app3_login_registers_unconditionally o h s sessionId email
              password bp t0 He Hid Hown Hs Hcred Hclick)
    as (out & r & rest & Hrun).
  subst s'. rewrite Hrun. cbn [fst snd].
  unfold App3.check_login_status, missing, mbind, prog_bind. rewrite Hi.
  split.
  - cbn. rewrite Hs. cbn. by eexists.
  - cbn. rewrite lookup_insert_eq. cbn.
    destruct (o' h' (Url bp.2)) as [u|e]; cbn.
    + match goal with
      | |- context [run o' ?h2 ?s2 ?p] =>
          destruct (run o' h2 s2 p) as [[out2 s2'] t2]
      end.
      by eexists.
    + by eexists.
Qed.

Lemma poll_reads_page_witness :
  truthy (Some "user@example.com") = true /\
  isInherited "s1" = false /\
  forall (o' : oracle) (h' : list Event),
    (exists r,
        run o' h' ∅ (App3.check_login_status (Some "s1"))
          = (Returned tt, ∅, [Ev (Respond 200 (Send (JStr "0"))) r])) /\
    (exists rest,
        (run o' h'
             (run quiet [] ∅
                (App3.login (Some "s1") (Some "user@example.com")
                            (Some "secret"))).1.2
             (App3.check_login_status (Some "s1"))).2
          = Ev (Url 1) (o' h' (Url 1)) :: rest).
Proof.
  split; [reflexivity|]. split; [reflexivity|].
  exact (poll_reads_page_opened_by_login quiet [] ∅ "s1"
           (Some "user@example.com") (Some "secret") (1, 1) _
           eq_refl ltac:(discriminate) eq_refl eq_refl eq_refl eq_refl).
Defined.

(** X10.  A login request without a session id is served under the id that
    [uuidv4] returns: when that id is free and the credentials were entered
    and the button clicked, the session is registered under the generated
    id and the first response is the same 1 as for a request that brought
    its id; the generated id is not what is sent. *)
Theorem login_without_id_registers_generated_id (o : oracle)
    (h : list Event) (s : Sessions) (id : string)
    (email password : option string) (bp : BrowserId * PageId)
    (t0 : list Event) :
  let fresh := Ev UuidV4 (Ok id) in
  let click := Click bp.2 ".login__form_action_container button" in
  truthy email = true ->
  o h UuidV4 = Ok id ->
  s !! id = None ->
  run o (h ++ [fresh]) s (enterCredentials email password)
    = (Returned bp, s, t0) ->
  o (h ++ fresh :: t0) click = Ok tt ->
  exists out r rest,
    run o h s (App3.login None email password) =
      (out, <[id := mkSession bp.1 bp.2]> s,
       fresh :: t0 ++ Ev click (Ok tt)
          :: Ev (Respond 200 (Send (JStr "1"))) r :: rest).
Proof.
  intros fresh click He Hid Hs Hcred Hclick. subst fresh click.
  unfold App3.login, missing, mbind, prog_bind. rewrite He. cbn.
  rewrite Hid. cbn. rewrite Hs. cbn.
  rewrite run_try_catch_around_send, run_bind', Hcred. cbn.
  match goal with |- context [o ?h' (Click ?a ?b)] =>
    replace (o h' (Click a b)) with (@Ok unit tt)
      by (symmetry; rewrite <- ?app_assoc; exact Hclick) end.
  cbn.
  match goal with |- context [o ?h' (Delay 10000)] =>
    destruct (o h' (Delay 10000)) as [[]|e] end; cbn.
  - rewrite run_try_catch_bind.
    match goal with |- context [run o ?h' ?s' (handleCaptchaChallenge ?a ?b ?c ?d)] =>
      pose proof (keeps_handleCaptchaChallenge a b c d s' o h') as Hk;
      destruct (run o h' s' (handleCaptchaChallenge a b c d))
        as [[[v|e] s''] t] end; simpl in Hk; subst s''; cbn;
      rewrite <- ?app_assoc; by eexists _, _, _.
  - rewrite <- ?app_assoc. by eexists _, _, _.
Qed.

Lemma login_without_id_witness :
  freshId [] UuidV4 = Ok "0b9c2a4e-6d1f-4c3a-8e57-2f1d9a7b3c10" /\
  exists out r rest,
    run freshId [] ∅ (App3.login None (Some "user@example.com") (Some "secret"))
      = (out, {[ "0b9c2a4e-6d1f-4c3a-8e57-2f1d9a7b3c10" := mkSession 1 1 ]},
         Ev UuidV4 (Ok "0b9c2a4e-6d1f-4c3a-8e57-2f1d9a7b3c10")
           :: (run freshId [Ev UuidV4 (Ok "0b9c2a4e-6d1f-4c3a-8e57-2f1d9a7b3c10")]
                   ∅ (enterCredentials (Some "user@example.com")
                                       (Some "secret"))).2
           ++ Ev (Click 1 ".login__form_action_container button") (Ok tt)
           :: Ev (Respond 200 (Send (JStr "1"))) r :: rest).
Proof.
  split; [reflexivity|].
  exact (login_without_id_registers_generated_id freshId [] ∅
           "0b9c2a4e-6d1f-4c3a-8e57-2f1d9a7b3c10"
           (Some "user@example.com") (Some "secret") (1, 1) _
           eq_refl eq_refl eq_refl eq_refl eq_refl).
Defined.

(** ** The phone form and its route *)

Lemma update_phone_replies (phone countryCode sessionId : option string) :
  replies (fun _ l =>
             exists st b resp,
               l = [(st, b)] /\
               fetchResponseOf st b = Some resp /\
               resp_ok resp = statusOk st /\
               (statusOk st = true -> resp_error resp = Ok None))
          (App3.update_phone phone countryCode sessionId).
Proof.
  unfold App3.update_phone, mbind, prog_bind.
  replies; eexists _, _, _; (split; [reflexivity|]);
    (split; [reflexivity|]); split; done.
Qed.

(** X11.  The phone form and the [update-phone] route, end to end.  The
    form posts the trimmed phone, the selected country and the session id
    of the page address; whatever the route then does with the browser, it
    sends one JSON response, and the form reacts to its status alone: a
    response with status 200 takes the user to [/], whether the body says
    success or redirects to lastcve, and any other response shows the
    form's own text, never the error text the route put in the body. *)
Theorem phone_form_reacts_to_status_only (o o' : oracle) (h h' : list Event)
    (s s' : Sessions) (phoneValue countryValue : string)
    (sessionId : option string) :
  let phone := FrontEnd.trim phoneValue in
  let post := Fetch "/api/linkedin/update-phone" phone countryValue sessionId in
  let reply := run o h s (App3.update_phone (Some phone) (Some countryValue)
                                             sessionId) in
  10 <= String.length phone ->
  o' h' HideError = Ok tt ->
  (forall st b resp,
      responses reply.2 = [(st, b)] ->
      fetchResponseOf st b = Some resp ->
      o' (h' ++ [Ev HideError (Ok tt)]) post = Ok resp) ->
  exists st b resp rest,
    responses reply.2 = [(st, b)] /\
    fetchResponseOf st b = Some resp /\
    calls (run o' h' s' (FrontEnd.handleSubmit phoneValue countryValue
                                               sessionId)).2
      = HideError :: post :: formReaction st :: rest /\
    (rest = [] \/
     statusOk st = true /\
     rest = [ShowError "An error occurred. Please try again."]).
Proof.
  intros phone post reply Hlen Hhide Hfetch.
  destruct (update_phone_replies (Some phone) (Some countryValue) sessionId
              o h s) as (st & b & resp & Hsent & Hresp & Hok & Herr).
  fold reply in Hsent.
  exists st, b, resp.
  cut (exists rest,
          calls (run o' h' s' (FrontEnd.handleSubmit phoneValue countryValue
                                                     sessionId)).2
            = HideError :: post :: formReaction st :: rest /\
          (rest = [] \/
           statusOk st = true /\
           rest = [ShowError "An error occurred. Please try again."])).
  { intros (rest & Hc & Hrest). by exists rest. }
  specialize (Hfetch st b resp Hsent Hresp).
  assert (String.eqb phone "" = false) as Hne.
  { destruct (String.eqb_spec phone "") as [E|]; [|done].
    rewrite E in Hlen. cbn in Hlen. lia. }
  assert ((String.length phone <? 10)%nat = false) as Hlt
    by (apply Nat.ltb_ge; lia).
  unfold FrontEnd.handleSubmit. cbv zeta. fold phone. rewrite Hne, Hlt.
  unfold mbind, prog_bind. cbn.
  rewrite Hhide. cbn. fold post.
  replace (o' (h' ++ [Ev HideError (Ok tt)]) post) with (@Ok FetchResponse resp)
    by (symmetry; exact Hfetch).
  cbn. rewrite Hok. unfold formReaction.
  destruct (statusOk st) eqn:Hst; cbn.
  - rewrite (Herr eq_refl). cbn.
    match goal with |- context [o' ?h2 (SetLocation ?l)] =>
      destruct (o' h2 (SetLocation l)) as [[]|e] end; cbn.
    + exists []. split; [reflexivity|by left].
    + match goal with |- context [o' ?h2 (ShowError ?m)] =>
        destruct (o' h2 (ShowError m)) as [[]|e2] end; cbn;
        (eexists; split; [reflexivity|by right]).
  - match goal with |- context [o' ?h2 (ShowError ?m)] =>
      destruct (o' h2 (ShowError m)) as [[]|e] end; cbn;
      (exists []; split; [reflexivity|by left]).
Qed.

Lemma phone_form_witness :
  10 <= String.length (FrontEnd.trim " 5551234567 ") /\
  exists st b resp rest,
    responses (run rejectingPhone [] {[ "s1" := mkSession 1 1 ]}
                 (App3.update_phone (Some (FrontEnd.trim " 5551234567 "))
                                    (Some "us") (Some "s1"))).2
      = [(st, b)] /\
    fetchResponseOf st b = Some resp /\
    calls (run (served rejectingPhone {[ "s1" := mkSession 1 1 ]}) [] ∅
               (FrontEnd.handleSubmit " 5551234567 " "us" (Some "s1"))).2
      = HideError
          :: Fetch "/api/linkedin/update-phone" (FrontEnd.trim " 5551234567 ")
                   "us" (Some "s1")
          :: formReaction st :: rest /\
    (rest = [] \/
     statusOk st = true /\
     rest = [ShowError "An error occurred. Please try again."]).
Proof.
  split; [vm_compute; lia|].
  apply (phone_form_reacts_to_status_only rejectingPhone
           (served rejectingPhone {[ "s1" := mkSession 1 1 ]}) [] []
           {[ "s1" := mkSession 1 1 ]} ∅ " 5551234567 " "us" (Some "s1")).
  - vm_compute; lia.
  - reflexivity.
  - intros st b resp Hsent Hresp.
    vm_compute in Hsent. injection Hsent as <- <-.
    vm_compute in Hresp. injection Hresp as <-.
    vm_compute. reflexivity.
Defined.

(** ** Submitting the phone for verification *)






(** ** When the login of [app2.js] answers *)

Lemma endsWithAnswer_app (t1 t2 : list Event) :
  responses t1 = [] -> endsWithAnswer t2 -> endsWithAnswer (t1 ++ t2).
Proof.
  intros H1 (t' & st & b & r & -> & H2).
  exists (t1 ++ t'), st, b, r. split; [by rewrite app_assoc|].
  by rewrite responses_app, H1, H2.
Qed.

Lemma answersLast_respond (st : nat) (b : Body) :
  answersLast (Vis (Respond st b) (fun _ => Ret tt)).
Proof. intros o h s. cbn. by exists [], st, b, (o h (Respond st b)). Qed.

Lemma answersLast_vis {R} (c : Call) (k : result (Resp c) -> prog R) :
  isRespond c = false ->
  (forall r, answersLast (k r)) -> answersLast (Vis c k).
Proof.
  intros Hc H o h s. cbn [run].
  specialize (H (o h c) o (h ++ [Ev c (o h c)]) s).
  destruct (run o _ s (k (o h c))) as [[[a|e] s'] t]; cbn [fst snd] in *;
    [|done].
  apply (endsWithAnswer_app [Ev c (o h c)]); [|exact H].
  by rewrite responses_silent_call.
Qed.

Lemma answersLast_get {R} (k : Sessions -> prog R) :
  (forall s, answersLast (k s)) -> answersLast (GetSessions k).
Proof. intros H o h s. apply H. Qed.

Lemma answersLast_put {R} (s' : Sessions) (k : prog R) :
  answersLast k -> answersLast (PutSessions s' k).
Proof. intros H o h s. apply H. Qed.

Lemma answersLast_try_catch_bind {A R} (p : prog A) (f : A -> prog R)
    (hd : string -> prog R) :
  silent p ->
  (forall a, answersLast (try_catch (f a) hd)) ->
  (forall e, answersLast (hd e)) ->
  answersLast (try_catch (bind p f) hd).
Proof.
  intros Hp Hf He o h s. rewrite run_try_catch_bind. specialize (Hp o h s).
  destruct (run o h s p) as [[[a|e] s'] t]; cbn [fst snd] in Hp.
  - specialize (Hf a o (h ++ t) s').
    destruct (run o (h ++ t) s' (try_catch (f a) hd)) as [[[v|e'] s''] t'];
      cbn [fst snd] in *; [|done].
    by apply endsWithAnswer_app.
  - specialize (He e o (h ++ t) s').
    destruct (run o (h ++ t) s' (hd e)) as [[[v|e'] s''] t'];
      cbn [fst snd] in *; [|done].
    by apply endsWithAnswer_app.
Qed.

Lemma silent_then {A B} (p : prog A) (f : A -> prog B) :
  silent p -> (forall a, silent (f a)) -> silent (bind p f).
Proof.
  intros Hp Hf. unfold silent. apply replies_bind_silent; [exact Hp| |done].
  intros a. apply Hf.
Qed.

(** X13.  The login route of [app2.js] answers at the very end.  Whatever
    the browser does, a run of the route that returns has sent exactly one
    response, and sending it was the last thing it did: the answer 1 comes
    only after the whole challenge flow has ended (the route of [app3.js]
    sends it before the flow starts).  The route throws only when
    [uuidv4] does, and then nothing else has happened. *)
Theorem app2_login_answers_last (o : oracle) (h : list Event) (s : Sessions)
    (sessionId email password : option string) :
  let res := run o h s (App2.login sessionId email password) in
  match res.1.1 with
  | Returned _ =>
      exists t st b r,
        res.2 = t ++ [Ev (Respond st b) r] /\ responses t = []
  | Thrown e =>
      missing sessionId = true /\ res.2 = [Ev UuidV4 (Err e)]
  end.
Proof.
  cbv zeta.
  pose (rest := fun id : string =>
          existing ← getSession id;
          if existing is Some _ then
            respond 400 (Send (JStr "Session already exists"))
          else
            try_catch
              (bp ← enterCredentials email password;
               call (ClickAndWaitForNavigation bp.2
                       ".login__form_action_container button" false);;
               passwordError ← call (Query bp.2 App2.passwordErrorSelector);
               result_ ← (if passwordError : bool then Ret "0"
                          else
                            delay 5000%Z;;
                            setSession id (mkSession bp.1 bp.2);;
                            handleCaptchaChallenge bp.2 bp.1 id 0;;
                            Ret "1");
               respond 200 (Send (JStr result_)))
              (fun err => respond 500 (SendErr err))).
  assert (Hrest : forall id, answersLast (rest id)).
  { intros id. unfold rest, getSession, mbind, prog_bind. cbn.
    apply answersLast_get. intros s0.
    destruct (s0 !! id); [apply answersLast_respond|].
    apply answersLast_try_catch_bind;
      [auto with silent| |intros e; apply answersLast_respond].
    intros [browser0 page0]. cbn.
    apply answersLast_vis; [done|]. intros [[]|e]; cbn;
      [|apply answersLast_respond].
    apply answersLast_vis; [done|]. intros [[|]|e]; cbn;
      [apply answersLast_respond| |apply answersLast_respond].
    apply answersLast_vis; [done|]. intros [[]|e]; cbn;
      [|apply answersLast_respond].
    apply answersLast_get. intros s1. apply answersLast_put.
    apply answersLast_try_catch_bind.
    - apply silent_then; [auto with silent|]. intros a. by replies.
    - intros a. cbn. apply answersLast_respond.
    - intros e. apply answersLast_respond. }
  unfold App2.login.
  destruct (missing email) eqn:He.
  { cbn. by exists [], 400, (Send (JStr "Email is required")),
               (o h (Respond 400 (Send (JStr "Email is required")))). }
  match goal with
  | |- context [run o h s (?X ≫= ?F)] =>
      change (run o h s (X ≫= F)) with (run o h s (bind X rest))
  end.
  rewrite run_bind'.
  destruct (missing sessionId) eqn:Hi.
  - cbn [call run].
    destruct (o h UuidV4) as [id|e] eqn:Hid; cbn [run]; [|done].
    match goal with
    | |- context [run o ?h' s (rest id)] =>
        specialize (Hrest id o h' s);
        destruct (run o h' s (rest id)) as [[[v|e] s'] t]
    end; cbn [fst snd] in *; [|done].
    apply (endsWithAnswer_app [Ev UuidV4 (Ok id)]); [done|exact Hrest].
  - cbn [run].
    match goal with
    | |- context [run o ?h' s (rest ?i)] =>
        specialize (Hrest i o h' s);
        destruct (run o h' s (rest i)) as [[[v|e] s'] t]
    end; cbn [fst snd] in *; [exact Hrest|done].
Qed.

(** ** Saving the cookies *)

Lemma format_allowed (c c' : Cookies.Cookie) :
  Cookies.isAllowed c = true ->
  Cookies.sameIdentity c c' ->
  Cookies.format c = Cookies.format c'.
Proof.
  intros Ha (Hn & Hv & Hd & Hp).
  unfold Cookies.isAllowed, Cookies.allowed in Ha. cbn [existsb] in Ha.
  unfold Cookies.format. rewrite <- Hn, <- Hv, <- Hd, <- Hp.
  repeat match goal with
         | |- context [String.eqb (Cookies.name c) ?k] =>
             destruct (String.eqb (Cookies.name c) k); [reflexivity|]
         end.
  discriminate Ha.
Qed.

(** X14.  What is saved of a cookie depends on its name, value, domain and
    path alone.  Two lists of cookies that agree on these four strings, one
    cookie after the other, are saved as the same array: the flags the
    browser reports (secure, httpOnly, sameSite, session and the rest) are
    never written, because the only [return] that reads them is behind the
    filter on the seven names and so is never taken. *)
Theorem saved_cookies_ignore_reported_flags
    (cookies cookies' : list Cookies.Cookie) :
  Forall2 Cookies.sameIdentity cookies cookies' ->
  Cookies.formattedCookies cookies = Cookies.formattedCookies cookies'.
Proof.
  unfold Cookies.formattedCookies.
  induction 1 as [|c c' cs cs' Hc _ IH]; [reflexivity|].
  cbn [List.filter].
  assert (Cookies.isAllowed c' = Cookies.isAllowed c) as ->.
  { unfold Cookies.isAllowed. by destruct Hc as [-> _]. }
  destruct (Cookies.isAllowed c) eqn:Ha; [|exact IH].
  cbn [map]. by rewrite IH, (format_allowed c c' Ha Hc).
Qed.

Lemma saved_cookies_ignore_flags_witness :
  Cookies.formattedCookies Cookies.reported
    = Cookies.formattedCookies
        (map (fun c => Cookies.mkCookie (Cookies.name c) (Cookies.value c)
                         (Cookies.domain c) (Cookies.path c)
                         (Cookies.Bool true) (Cookies.Bool false)
                         (Cookies.Bool false) (Cookies.Str "Strict")
                         (Cookies.Bool true) (Cookies.Str "example.org")
                         (Cookies.Str "k") (Cookies.Str "1"))
             Cookies.reported).
Proof.
  apply saved_cookies_ignore_reported_flags.
  repeat constructor.
Defined.

(** X15.  When the cookies could be read, one object is written for each
    cookie whose name is one of the seven on the list, in the order the
    browser gave them, and for no other cookie.  Each object has the
    cookie's own name and value, no key twice, [secure] true and
    [hostOnly] false; its domain is the cookie's, except that the session
    cookie JSESSIONID is always written with the domain
    .www.linkedin.com, and its path is the root, except that li_at keeps
    its own. *)
Theorem saved_cookies_are_the_listed_ones (cookies : list Cookies.Cookie)
    (sessionId : option string) :
  exists objs,
    Cookies.collectAndSaveCookies (Ok cookies) sessionId
      = Some ("cookies/" +:+ default "undefined" sessionId +:+ ".json", objs) /\
    Forall2
      (fun c obj =>
         field "name" obj = Some (Cookies.Str (Cookies.name c)) /\
         field "value" obj = Some (Cookies.Str (Cookies.value c)) /\
         field "domain" obj
           = Some (Cookies.Str
                     (if String.eqb (Cookies.name c) "JSESSIONID"
                      then ".www.linkedin.com" else Cookies.domain c)) /\
         field "path" obj
           = Some (Cookies.Str
                     (if String.eqb (Cookies.name c) "li_at"
                      then Cookies.path c else "/")) /\
         field "secure" obj = Some (Cookies.Bool true) /\
         field "hostOnly" obj = Some (Cookies.Bool false) /\
         NoDup (map fst obj))
      (List.filter Cookies.isAllowed cookies) objs.
Proof.
  eexists. split; [reflexivity|].
  unfold Cookies.formattedCookies.
  induction cookies as [|c cs IH]; [constructor|].
  cbn [List.filter].
  destruct (Cookies.isAllowed c) eqn:Ha; [|exact IH].
  cbn [map]. constructor; [|exact IH].
  unfold Cookies.isAllowed, Cookies.allowed in Ha. cbn [existsb] in Ha.
  unfold Cookies.format.
  repeat match goal with
         | |- context [String.eqb (Cookies.name c) ?k] =>
             destruct (String.eqb (Cookies.name c) k) eqn:?
         end;
    try discriminate Ha.
  all: repeat match goal with
              | H : String.eqb _ _ = true |- _ =>
                  apply String.eqb_eq in H
              end.
  all: try congruence.
  all: cbn; repeat split; try reflexivity.
  all: match goal with
       | |- NoDup ?l => exact (bool_decide_unpack (NoDup l) I)
       end.
Qed.

(** ** The loop over the frames after the start control was clicked *)

Lemma handlePuzzleTiles_tests_once (o : oracle) frame browser sessionId h s :
  List.filter isTilesExist
    (calls (run o h s (handlePuzzleTiles frame browser sessionId)).2)
    = [FrameEvaluate frame TilesExist].
Proof.
  unfold handlePuzzleTiles, downloadPuzzlePiece, try_finally, delay.
  exec; reflexivity.
Qed.

(** X16.  The loop that follows a click on the start control has no early
    exit.  Because [handlePuzzleTiles] never reports success, a loop that
    returns has tested every frame of the page for tiles, in the order
    [page.frames()] gave them, and returns nothing (the caller gets
    [undefined]); a loop that throws has tested the frames up to the one
    at which a call failed. *)
Theorem every_frame_is_tested_for_tiles (o : oracle)
    (again : nat -> prog (option bool)) (page : PageId) (browser : BrowserId)
    (sessionId : string) (challengeCount : nat) (allFrames : list FrameId)
    (h : list Event) (s : Sessions) :
  let res := run o h s (tilesLoop again page browser sessionId challengeCount
                                  allFrames) in
  let tested := List.filter isTilesExist (calls res.2) in
  match res.1.1 with
  | Returned r => r = None /\ tested = tileTests allFrames
  | Thrown _ =>
      exists n, 0 < n <= length allFrames /\
                tested = tileTests (take n allFrames)
  end.
Proof.
  cbv zeta. revert h.
  induction allFrames as [|frame rest IH]; intros h; [done|].
  rewrite tilesLoop_cons, run_bind.
  pose proof (handlePuzzleTiles_tests_once o frame browser sessionId h s)
    as Hone.
  destruct (run_handlePuzzleTiles o frame browser sessionId h s)
    as (out & t & Hrun & [->|(e & -> & He)] & _); rewrite Hrun in Hone |- *;
    cbn [snd] in Hone.
  - specialize (IH (h ++ t)).
    destruct (run o (h ++ t) s
                (tilesLoop again page browser sessionId challengeCount rest))
      as [[[r|e] s'] t']; cbn [fst snd] in *.
    + destruct IH as [-> IH]. split; [done|].
      by rewrite calls_app, List.filter_app, Hone, IH.
    + destruct IH as (n & Hn & IH). exists (S n). split; [cbn; lia|].
      by rewrite calls_app, List.filter_app, Hone, IH.
  - cbn [fst snd]. exists 1. split; [cbn; lia|]. exact Hone.
Qed.

(** ** Who writes to the registry *)

(** X17.  Only a login writes to the registry.  Every other request of
    [app3.js] ends with the registry exactly as it found it, whatever
    happens in the browser; a login either leaves it as it was or adds one
    entry under an id that was free.  No route has a way to end a session:
    a browser once registered stays registered. *)
Theorem only_login_registers (o : oracle) (h : list Event) (s : Sessions)
    (req : App3.Request) :
  registryChange req s (run o h s (App3.handle req)).1.2.
Proof.
  revert o h.
  change (ends_in (registryChange req s) s (App3.handle req)).
  destruct req; unfold App3.handle, App3.check_puzzle_image, App3.login,
    App3.security_verification, App3.select_tile, App3.verify_code,
    App3.verify_sms, App3.verify_phone, App3.update_phone,
    App3.check_login_status, registryChange, mbind, prog_bind.
  all: ends_in; try done; try (by left).
  all: right; eexists _, _; split; [eassumption|reflexivity].
Qed.

(** ** A login that fails *)

(** X18.  For a session id that is free and is not the name of a member
    every object inherits: when opening the browser, loading the login
    page or typing the credentials fails, the login route of either
    server answers with status 500 and the error, registers nothing, and
    makes no further call: in particular the browser it launched is not
    closed. *)
Theorem failed_login_answers_500 (o : oracle) (h : list Event) (s : Sessions)
    (sessionId : string) (email password : option string) (e : string)
    (t0 : list Event) :
  truthy email = true ->
  sessionId <> "" ->
  isInherited sessionId = false ->
  s !! sessionId = None ->
  run o h s (enterCredentials email password) = (Thrown e, s, t0) ->
  (exists r,
      run o h s (App3.login (Some sessionId) email password)
        = (Returned tt, s, t0 ++ [Ev (Respond 500 (SendErr e)) r])) /\
  (exists r,
      run o h s (App2.login (Some sessionId) email password)
        = (Returned tt, s, t0 ++ [Ev (Respond 500 (SendErr e)) r])).
Proof.
  intros He Hid _ Hs Hcred.
  assert (Hi : truthy (Some sessionId) = true).
  { unfold truthy. by destruct (String.eqb_spec sessionId ""). }
  split.
  - unfold App3.login, missing, mbind, prog_bind. rewrite He, Hi. cbn.
    rewrite Hs. cbn. rewrite run_try_catch_around_send, run_bind', Hcred.
    cbn. by eexists.
  - unfold App2.login, missing, mbind, prog_bind. rewrite He, Hi. cbn.
    rewrite Hs. cbn. rewrite run_try_catch_bind, Hcred. cbn. by eexists.
Qed.

Lemma failed_login_witness :
  let t0 := [Ev Launch (Ok 1); Ev (NewPage 1) (Ok 1);
             Ev (SetUserAgent 1 userAgent) (Ok tt);
             Ev (Goto 1 "https://www.linkedin.com/login")
                (Err "net::ERR_INTERNET_DISCONNECTED")] in
  isInherited "s1" = false /\
  run offline [] ∅ (enterCredentials (Some "user@example.com") (Some "secret"))
    = (Thrown "net::ERR_INTERNET_DISCONNECTED", ∅, t0) /\
  (exists r,
      run offline [] ∅
          (App3.login (Some "s1") (Some "user@example.com") (Some "secret"))
        = (Returned tt, ∅,
           t0 ++ [Ev (Respond 500 (SendErr "net::ERR_INTERNET_DISCONNECTED"))
                     r])) /\
  (exists r,
      run offline [] ∅
          (App2.login (Some "s1") (Some "user@example.com") (Some "secret"))
        = (Returned tt, ∅,
           t0 ++ [Ev (Respond 500 (SendErr "net::ERR_INTERNET_DISCONNECTED"))
                     r])).
Proof.
  intros t0. split; [reflexivity|]. split; [reflexivity|].
  exact (failed_login_answers_500 offline [] ∅ "s1" (Some "user@example.com")
           (Some "secret") "net::ERR_INTERNET_DISCONNECTED" t0
           eq_refl ltac:(discriminate) eq_refl eq_refl eq_refl).
Defined.

(** ** A login that the page accepts, in [app2.js] *)

Lemma run_handleCaptchaChallenge (o : oracle) page browser sessionId
    challengeCount h s :
  exists out t,
    run o h s (handleCaptchaChallenge page browser sessionId challengeCount)
      = (out, s, t) /\
    responses t = [] /\
    match out with
    | Returned _ => True
    | Thrown e => thrownBy e t
    end.
Proof.
  pose proof (silent_handleCaptchaChallenge page browser sessionId
                challengeCount o h s) as Hsilent.
  unfold handleCaptchaChallenge in *. rewrite captchaFrom_unfold in *.
  match goal with |- context [captchaRound ?again] =>
    destruct (run_captchaRound o again page browser sessionId challengeCount
                h s) as (out & t & Hrun & Hout & _) end.
  rewrite Hrun in Hsilent. exists out, t. split; [exact Hrun|].
  split; [exact Hsilent|]. by destruct out as [[r|]|e].
Qed.

(** X19.  In [app2.js], for a session id that is free and is not the name
    of a member every object inherits, a login whose page shows no
    password error waits five seconds, registers the session and only
    then runs the challenge flow; the one response comes after the flow.  If the flow ends
    normally the answer is 1.  If a call of the flow throws, the answer is
    status 500 with that error, and the session stays registered all the
    same. *)
Theorem app2_accepted_login_registers_before_flow (o : oracle)
    (h : list Event) (s : Sessions) (sessionId : string)
    (email password : option string) (bp : BrowserId * PageId)
    (t0 : list Event) :
  let click := ClickAndWaitForNavigation bp.2
                 ".login__form_action_container button" false in
  let look := Query bp.2 App2.passwordErrorSelector in
  let pre := t0 ++ [Ev click (Ok tt); Ev look (Ok false);
                    Ev (Delay 5000) (Ok tt)] in
  truthy email = true ->
  sessionId <> "" ->
  isInherited sessionId = false ->
  s !! sessionId = None ->
  run o h s (enterCredentials email password) = (Returned bp, s, t0) ->
  o (h ++ t0) click = Ok tt ->
  o (h ++ t0 ++ [Ev click (Ok tt)]) look = Ok false ->
  o (h ++ t0 ++ [Ev click (Ok tt); Ev look (Ok false)]) (Delay 5000) = Ok tt ->
  exists flow st b r,
    run o h s (App2.login (Some sessionId) email password)
      = (Returned tt, <[sessionId := mkSession bp.1 bp.2]> s,
         pre ++ flow ++ [Ev (Respond st b) r]) /\
    (run o (h ++ pre) (<[sessionId := mkSession bp.1 bp.2]> s)
         (handleCaptchaChallenge bp.2 bp.1 sessionId 0)).2 = flow /\
    responses flow = [] /\
    ((st = 200 /\ b = Send (JStr "1")) \/
     (exists e, thrownBy e flow /\ st = 500 /\ b = SendErr e)).
Proof.
  intros click look pre He Hid _ Hs Hcred Hclick Hlook Hdelay.
  subst click look pre.
  assert (Hi : truthy (Some sessionId) = true).
  { unfold truthy. by destruct (String.eqb_spec sessionId ""). }
  unfold App2.login, missing, mbind, prog_bind. rewrite He, Hi. cbn.
  rewrite Hs. cbn. rewrite run_try_catch_bind, Hcred. cbn.
  match goal with |- context [o ?h' (ClickAndWaitForNavigation ?a ?b ?c)] =>
    replace (o h' (ClickAndWaitForNavigation a b c)) with (@Ok unit tt)
      by (symmetry; exact Hclick) end.
  cbn.
  match goal with |- context [o ?h' (Query ?a ?b)] =>
    replace (o h' (Query a b)) with (@Ok bool false)
      by (symmetry; rewrite <- ?app_assoc; exact Hlook) end.
  cbn.
  match goal with |- context [o ?h' (Delay 5000)] =>
    replace (o h' (Delay 5000)) with (@Ok unit tt)
      by (symmetry; rewrite <- ?app_assoc; exact Hdelay) end.
  cbn. rewrite run_try_catch_bind, run_bind'.
  rewrite <- !app_assoc. cbn [app].
  match goal with
  | |- context [run o ?h' ?s' (handleCaptchaChallenge ?a ?b ?c ?d)] =>
      destruct (run_handleCaptchaChallenge o a b c d h' s')
        as (out & flow & Hflow & Hsilent & Hout)
  end.
  rewrite Hflow. cbn [snd].
  destruct out as [v|e]; cbn.
  - eexists flow, _, _, _. split; [rewrite <- !app_assoc; reflexivity|].
    split; [reflexivity|]. split; [exact Hsilent|]. by left.
  - eexists flow, _, _, _. split; [rewrite <- !app_assoc; reflexivity|].
    split; [reflexivity|]. split; [exact Hsilent|]. right. by exists e.
Qed.

Lemma app2_accepted_login_witness :
  let email := Some "user@example.com" in
  let password := Some "secret" in
  let t0 := (run quiet [] ∅ (enterCredentials email password)).2 in
  let click := ClickAndWaitForNavigation 1
                 ".login__form_action_container button" false in
  let look := Query 1 App2.passwordErrorSelector in
  let pre := t0 ++ [Ev click (Ok tt); Ev look (Ok false);
                    Ev (Delay 5000) (Ok tt)] in
  isInherited "s1" = false /\
  run quiet [] ∅ (enterCredentials email password) = (Returned (1, 1), ∅, t0) /\
  exists flow st b r,
    run quiet [] ∅ (App2.login (Some "s1") email password)
      = (Returned tt, <["s1" := mkSession 1 1]> ∅,
         pre ++ flow ++ [Ev (Respond st b) r]) /\
    (run quiet ([] ++ pre) (<["s1" := mkSession 1 1]> ∅)
         (handleCaptchaChallenge 1 1 "s1" 0)).2 = flow /\
    responses flow = [] /\
    ((st = 200 /\ b = Send (JStr "1")) \/
     (exists e, thrownBy e flow /\ st = 500 /\ b = SendErr e)).
Proof.
  intros email password t0 click look pre.
  split; [reflexivity|]. split; [reflexivity|].
  exact (app2_accepted_login_registers_before_flow quiet [] ∅ "s1" email
           password (1, 1) t0 eq_refl ltac:(discriminate) eq_refl eq_refl
           eq_refl eq_refl eq_refl eq_refl).
Defined.
